(** * PDFProcessor: the label-cropping pipeline of [src/api/pdfProcessor.js]

    A shallow embedding of the static methods of [PDFProcessor] and of the
    part of the host they run on (pdf-lib documents, [fs], pdf-parse,
    [String.prototype] helpers), followed by the properties of the pipeline.

    Conventions.
    - JavaScript numbers that measure lengths are rationals ([Q]); the
      margin produced by [parseInt] is an integer, rounded as a Number is,
      or [NaN] ([option Z]).
    - JavaScript strings are sequences of code units below 256 ([string]).
    - A pdf-lib [PDFDocument] is the list of its pages; methods that mutate a
      document or a page return the new value.
    - A rejected promise or a thrown [Error] is [Err msg], [msg] being
      [error.message]. *)

From Stdlib Require Import List String Ascii ZArith QArith Bool Lia Lqa.
From Stdlib Require Import DecimalString Permutation Sorted.
Import ListNotations.

Open Scope string_scope.
Open Scope list_scope.

(* ================================================================= *)
(** ** Results of fallible (awaited) operations *)

Inductive Result (A : Type) : Type :=
| Ok (a : A)
| Err (message : string).
Arguments Ok {A} a.
Arguments Err {A} message.

Definition bind {A B : Type} (r : Result A) (k : A -> Result B) : Result B :=
  match r with
  | Ok a => k a
  | Err m => Err m
  end.

Notation "x <- r ;; k" := (bind r (fun x => k))
  (at level 61, r at next level, right associativity).

(** [for (const a of l) { s = await f(s, a) }] *)
Fixpoint foldM {S A : Type} (f : S -> A -> Result S) (l : list A) (s : S)
  : Result S :=
  match l with
  | [] => Ok s
  | a :: l' => s' <- f s a ;; foldM f l' s'
  end.

(** [for (const a of l) { await f(a) }] where [f] changes [a] in place *)
Fixpoint mapM {A B : Type} (f : A -> Result B) (l : list A)
  : Result (list B) :=
  match l with
  | [] => Ok []
  | a :: l' => b <- f a ;; bs <- mapM f l' ;; Ok (b :: bs)
  end.

(** The double quote, for the messages that hold one. *)
Definition dquote : string := String (ascii_of_nat 34) EmptyString.

(* ================================================================= *)
(** ** Geometry and pages (pdf-lib) *)

Record Rect : Type := mkRect
  { rx : Q; ry : Q; rwidth : Q; rheight : Q }.

Inductive Font : Type := Helvetica | HelveticaBold.

(** The options object handed to [page.drawText]. *)
Record DrawText : Type := mkDrawText
  { dt_text : string;
    dt_x : Q;
    dt_y : Q;
    dt_size : Q;
    dt_font : Font;
    dt_color : Q * Q * Q }.

(** A page: its MediaBox, its CropBox entry when one has been set, the
    content it was loaded with and the text drawn on it since. *)
Record Page : Type := mkPage
  { mediaBox : Rect;
    cropBox : option Rect;
    content : string;
    drawn : list DrawText }.

Definition Document : Type := list Page.

Definition Bytes : Type := list Byte.byte.

(** [page.getSize()]: width and height of the MediaBox. *)
Definition getSize (p : Page) : Q * Q :=
  (rwidth (mediaBox p), rheight (mediaBox p)).

(** [page.setCropBox(x, y, width, height)]: writes the CropBox entry and
    nothing else. *)
Definition setCropBox (x y w h : Q) (p : Page) : Page :=
  mkPage (mediaBox p) (Some (mkRect x y w h)) (content p) (drawn p).

(** [page.getCropBox()]: the CropBox entry, the MediaBox when absent. *)
Definition getCropBox (p : Page) : Rect :=
  match cropBox p with
  | Some r => r
  | None => mediaBox p
  end.

(** [page.drawText(text, options)] *)
Definition drawText (d : DrawText) (p : Page) : Page :=
  mkPage (mediaBox p) (cropBox p) (content p) (drawn p ++ [d]).

Definition PDFDocument_create : Document := [].

Definition getPageCount (d : Document) : nat := List.length d.

Definition getPageIndices (d : Document) : list nat :=
  seq 0 (List.length d).

Definition getPages (d : Document) : list Page := d.

Definition addPage (d : Document) (p : Page) : Document := d ++ [p].

Definition copyPages_range_message : string :=
  "Cannot read properties of undefined (reading 'node')".

(** [target.copyPages(src, indices)]: copies of the pages of [src] at
    [indices], in that order; an index outside [src] throws. *)
Fixpoint copyPages (src : Document) (indices : list nat)
  : Result (list Page) :=
  match indices with
  | [] => Ok []
  | i :: rest =>
      match nth_error src i with
      | Some p => ps <- copyPages src rest ;; Ok (p :: ps)
      | None => Err copyPages_range_message
      end
  end.

(** [newWidth > 0] on numbers. *)
Definition Qgtb (a b : Q) : bool := negb (Qle_bool a b).

(* ================================================================= *)
(** ** [CROP_PRESETS] and [getPlatformPreset] *)

Record CropBoxPreset : Type := mkCropBoxPreset
  { topLeft : Q * Q;
    bottomRight : Q * Q;
    cb_x : Q;
    cb_y : Q;
    cb_width : Q;
    cb_height : Q }.

Record Preset : Type := mkPreset
  { pageSize : option (Q * Q);
    preset_cropBox : option CropBoxPreset;
    preset_margin : option Q }.

Definition flipkart_preset : Preset :=
  mkPreset (Some (595, 842)%Q)
           (Some (mkCropBoxPreset (272, 36)%Q (618, 589)%Q 272 253 346 553))
           None.

Definition margin_preset (m : Q) : Preset := mkPreset None None (Some m).

Definition meesho_preset : Preset := margin_preset 40.
Definition amazon_preset : Preset := margin_preset 45.
Definition citymall_preset : Preset := margin_preset 35.
Definition custom_preset : Preset := margin_preset 50.

(** The own properties of the object literal, in source order. *)
Definition CROP_PRESETS : list (string * Preset) :=
  [ ("flipkart", flipkart_preset);
    ("meesho", meesho_preset);
    ("amazon", amazon_preset);
    ("citymall", citymall_preset);
    ("custom", custom_preset) ].

(** [CROP_PRESETS] is an ordinary object: its prototype is
    [Object.prototype], whose properties are found by [obj[key]] too. *)
Definition Object_prototype : list string :=
  [ "constructor"; "__defineGetter__"; "__defineSetter__";
    "hasOwnProperty"; "__lookupGetter__"; "__lookupSetter__";
    "isPrototypeOf"; "propertyIsEnumerable"; "toString"; "valueOf";
    "__proto__"; "toLocaleString" ].

(** What a property read on [CROP_PRESETS] can evaluate to. *)
Inductive PresetValue : Type :=
| Undefined
| PresetObject (p : Preset)
| Inherited (name : string).

Fixpoint ownProperty (o : list (string * Preset)) (key : string)
  : option Preset :=
  match o with
  | [] => None
  | (k, v) :: o' => if String.eqb k key then Some v else ownProperty o' key
  end.

Definition inb (key : string) (l : list string) : bool :=
  existsb (String.eqb key) l.

(** [CROP_PRESETS[key]] *)
Definition getProperty (key : string) : PresetValue :=
  match ownProperty CROP_PRESETS key with
  | Some p => PresetObject p
  | None => if inb key Object_prototype then Inherited key else Undefined
  end.

(** Truthiness: objects and functions are truthy, [undefined] is not. *)
Definition truthy (v : PresetValue) : bool :=
  match v with
  | Undefined => false
  | _ => true
  end.

Definition getPlatformPreset (platform : string) : PresetValue :=
  let v := getProperty platform in
  if truthy v then v else getProperty "custom".

(** [preset.cropBox]; a function or [Object.prototype] has no such
    property. *)
Definition cropBox_of (v : PresetValue) : option CropBoxPreset :=
  match v with
  | PresetObject p => preset_cropBox p
  | _ => None
  end.

(* ================================================================= *)
(** ** Crop engine *)

Definition destructure_message : string :=
  "Cannot read properties of undefined (reading 'getSize')".

(** [const [copiedPage] = await target.copyPages(src, [i])] *)
Definition copyOnePage (src : Document) (i : nat) : Result Page :=
  copied <- copyPages src [i] ;;
  match copied with
  | copiedPage :: _ => Ok copiedPage
  | [] => Err destructure_message
  end.

(** One iteration of the loop of [cropFlipkart]. *)
Definition cropFlipkart_step (pdfDoc : Document) (newPdf : Document) (i : nat)
  : Result Document :=
  copiedPage <- copyOnePage pdfDoc i ;;
  let copiedPage := setCropBox 165 460 265 360 copiedPage in
  Ok (addPage newPdf copiedPage).

Definition cropFlipkart (pdfDoc : Document) (cropBox : CropBoxPreset)
  : Result Document :=
  let newPdf := PDFDocument_create in
  let pageCount := getPageCount pdfDoc in
  foldM (cropFlipkart_step pdfDoc) (seq 0 pageCount) newPdf.

(** The body of the loop of [applyMarginCrop], on one page. *)
Definition marginCropPage (marginPx : Q) (page : Page) : Page :=
  let '(width, height) := getSize page in
  let newWidth := (width - 2 * marginPx)%Q in
  let newHeight := (height - 2 * marginPx)%Q in
  if Qgtb newWidth 0 && Qgtb newHeight 0
  then setCropBox marginPx marginPx newWidth newHeight page
  else page.

Definition applyMarginCrop (pdfDoc : Document) (marginPx : Q) : Document :=
  map (marginCropPage marginPx) (getPages pdfDoc).

(* ================================================================= *)
(** ** Strings ([String.prototype], [parseInt]) *)

Definition code (a : ascii) : nat := nat_of_ascii a.

Definition between (lo hi : nat) (a : ascii) : bool :=
  Nat.leb lo (code a) && Nat.leb (code a) hi.

(** [\d] *)
Definition isDigit (a : ascii) : bool := between 48 57 a.

(** [\s], and the characters removed by [trim]: TAB, LF, VT, FF, CR, SP
    and NBSP. *)
Definition isSpace (a : ascii) : bool :=
  between 9 13 a || Nat.eqb (code a) 32 || Nat.eqb (code a) 160.

Definition isUpper (a : ascii) : bool := between 65 90 a.
Definition isLower (a : ascii) : bool := between 97 122 a.

(** [toUpperCase] of one code unit.  Sort keys are made of the characters
    of the capture class and of the fallback key, whose only cased
    characters are the letters a to z. *)
Definition upcase (a : ascii) : ascii :=
  if isLower a then ascii_of_nat (code a - 32) else a.

Fixpoint toUpperCase (s : string) : string :=
  match s with
  | EmptyString => EmptyString
  | String a s' => String (upcase a) (toUpperCase s')
  end.

Fixpoint trimStart (s : string) : string :=
  match s with
  | EmptyString => EmptyString
  | String a s' => if isSpace a then trimStart s' else s
  end.

Definition reverse (s : string) : string :=
  string_of_list_ascii (rev (list_ascii_of_string s)).

Definition trimEnd (s : string) : string := reverse (trimStart (reverse s)).

Definition trim (s : string) : string := trimEnd (trimStart s).

(** [String(i)] for an array index. *)
Definition String_of_nat (i : nat) : string :=
  NilEmpty.string_of_uint (Nat.to_uint i).

Fixpoint replicate (n : nat) (a : ascii) : string :=
  match n with
  | O => EmptyString
  | S n' => String a (replicate n' a)
  end.

(** [s.padStart(targetLength, pad)] for a one-character [pad]. *)
Definition padStart (targetLength : nat) (pad : ascii) (s : string) : string :=
  (replicate (targetLength - String.length s) pad ++ s)%string.

Definition digitValue (radix : Z) (a : ascii) : option Z :=
  let v :=
    if isDigit a then Some (Z.of_nat (code a - 48))
    else if between 97 122 a then Some (Z.of_nat (code a - 87))
    else if between 65 90 a then Some (Z.of_nat (code a - 55))
    else None in
  match v with
  | Some d => if (d <? radix)%Z then Some d else None
  | None => None
  end.

(** The longest prefix of digits of [radix], as a number; [acc] is
    [None] until a digit has been read. *)
Fixpoint parseDigits (radix : Z) (s : string) (acc : option Z) : option Z :=
  match s with
  | EmptyString => acc
  | String a s' =>
      match digitValue radix a with
      | Some d =>
          parseDigits radix s'
            (Some (radix * match acc with Some n => n | None => 0 end + d)%Z)
      | None => acc
      end
  end.

(** The Number value of an integer: itself up to 2^53, beyond that the
    nearest integer with a 53-bit significand, ties to the even one.
    (Integers from 2^1024 on, which no margin of fewer than 300 digits
    reaches, are outside the numbers modelled.) *)
Definition toNumber (n : Z) : Z :=
  let a := Z.abs n in
  if (a <? 2 ^ 53)%Z then n
  else
    let e := (Z.log2 a - 52)%Z in
    let q := Z.shiftr a e in
    let r := (a - Z.shiftl q e)%Z in
    let half := Z.shiftl 1 (e - 1) in
    let q' :=
      if (r <? half)%Z then q
      else if (half <? r)%Z then (q + 1)%Z
      else if Z.even q then q else (q + 1)%Z in
    (Z.sgn n * Z.shiftl q' e)%Z.

(** [parseInt(s)] with no radix argument; [None] is [NaN]. *)
Definition parseInt (s : string) : option Z :=
  let s := trimStart s in
  let '(sign, s) :=
    match s with
    | String "-" s' => ((-1)%Z, s')
    | String "+" s' => (1%Z, s')
    | _ => (1%Z, s)
    end in
  let '(radix, s) :=
    match s with
    | String "0" (String "x" s') => (16%Z, s')
    | String "0" (String "X" s') => (16%Z, s')
    | _ => (10%Z, s)
    end in
  option_map (fun mathInt => toNumber (sign * mathInt))
             (parseDigits radix s None).

(* ================================================================= *)
(** ** Regular expressions, as the backtracking matcher runs them *)

(** The patterns of [extractSKUFromPage] are sequences of single-character
    tests, greedy or lazy repetitions of such a test, and one capture
    group. *)
Inductive Item : Type :=
| One (c : ascii -> bool)
| Star (greedy : bool) (c : ascii -> bool)
| Open
| Close.

(** [c+] is [c c*], [c+?] is [c c*?]. *)
Definition plus (greedy : bool) (c : ascii -> bool) : list Item :=
  [One c; Star greedy c].

(** A literal character under the [i] flag. *)
Definition ci (c : ascii) : ascii -> bool :=
  fun a => Ascii.eqb (upcase a) (upcase c).

Definition literal (s : string) : list Item :=
  map (fun c => One (ci c)) (list_ascii_of_string s).

(** [cur]: the characters consumed since the group was opened, last one
    first; [group1]: the finished capture. *)
Record Captures : Type := mkCaptures
  { cur : option (list ascii);
    group1 : option string }.

Definition consume (a : ascii) (st : Captures) : Captures :=
  mkCaptures (option_map (cons a) (cur st)) (group1 st).

Definition openGroup (st : Captures) : Captures :=
  mkCaptures (Some []) (group1 st).

Definition closeGroup (st : Captures) : Captures :=
  mkCaptures None
    (option_map (fun l => string_of_list_ascii (rev l)) (cur st)).

(** Matching [p] at the start of [s]: alternatives are tried in the
    order of the backtracking matcher (a greedy repetition takes one more
    character first, a lazy one stops first). *)
Fixpoint matchItems (p : list Item) (s : string) (st : Captures) {struct p}
  : option Captures :=
  match p with
  | [] => Some st
  | One c :: p' =>
      match s with
      | String a s' => if c a then matchItems p' s' (consume a st) else None
      | EmptyString => None
      end
  | Star greedy c :: p' =>
      (fix star (s : string) (st : Captures) {struct s} : option Captures :=
         if greedy then
           match
             match s with
             | String a s' => if c a then star s' (consume a st) else None
             | EmptyString => None
             end
           with
           | Some r => Some r
           | None => matchItems p' s st
           end
         else
           match matchItems p' s st with
           | Some r => Some r
           | None =>
               match s with
               | String a s' => if c a then star s' (consume a st) else None
               | EmptyString => None
               end
           end) s st
  | Open :: p' => matchItems p' s (openGroup st)
  | Close :: p' => matchItems p' s (closeGroup st)
  end.

(** [text.match(re)] without the [g] flag: the match at the leftmost
    start position that has one; the result is element 1 of the match
    array. *)
Fixpoint regexMatch (p : list Item) (text : string) : option (option string) :=
  match matchItems p text (mkCaptures None None) with
  | Some st => Some (group1 st)
  | None =>
      match text with
      | EmptyString => None
      | String _ text' => regexMatch p text'
      end
  end.

(** [[a-zA-Z0-9_\s-]] *)
Definition skuChar (a : ascii) : bool :=
  isLower a || isUpper a || isDigit a || Ascii.eqb a "_" || isSpace a
  || Ascii.eqb a "-".

(** [[A-Z]] under the [i] flag. *)
Definition letter (a : ascii) : bool := isUpper a || isLower a.

(** [.] under the [s] flag. *)
Definition anyChar (a : ascii) : bool := true.

Definition skuGroup : list Item :=
  [Open] ++ plus false skuChar ++ [Close].

(** [/\d+\s+([a-zA-Z0-9_\s-]+?)\s*\|\s*[A-Z]/i] *)
Definition pattern1 : list Item :=
  plus true isDigit ++ plus true isSpace ++ skuGroup
  ++ [Star true isSpace; One (Ascii.eqb "|"); Star true isSpace; One letter].

(** [/QTY\s+\d+\s+([a-zA-Z0-9_\s-]+?)\s*\|/i] *)
Definition pattern2 : list Item :=
  literal "QTY" ++ plus true isSpace ++ plus true isDigit
  ++ plus true isSpace ++ skuGroup
  ++ [Star true isSpace; One (Ascii.eqb "|")].

(** [/SKU ID.*?QTY\s+\d+\s+([a-zA-Z0-9_\s-]+?)\s*\|/is] *)
Definition pattern3 : list Item :=
  literal "SKU ID" ++ [Star false anyChar] ++ pattern2.

(** [skuMatch && skuMatch[1]] *)
Definition captured (skuMatch : option (option string)) : option string :=
  match skuMatch with
  | Some (Some g) => if String.eqb g EmptyString then None else Some g
  | _ => None
  end.

(** Lines 50 to 71 of [extractSKUFromPage]: from [data.text] to the SKU,
    [None] being [null]. *)
Definition extractSKU (text : string) : option string :=
  let skuMatch := regexMatch pattern1 text in
  let skuMatch :=
    match skuMatch with
    | None => regexMatch pattern2 text
    | Some _ => skuMatch
    end in
  let skuMatch :=
    match skuMatch with
    | None => regexMatch pattern3 text
    | Some _ => skuMatch
    end in
  match captured skuMatch with
  | Some g => Some (trim g)
  | None => None
  end.

(* ================================================================= *)
(** ** The host: file system, PDF codec, text extraction, locale *)

Record Host : Type := mkHost
  { (** [fs.readFile(path)] *)
    readFile : string -> Result Bytes;
    (** [PDFDocument.load(bytes)] *)
    PDFDocument_load : Bytes -> Result Document;
    (** [pdfDoc.save()] *)
    save : Document -> Result Bytes;
    (** [data.text] of [pdfParse(bytes, { pagerender })], where
        [pagerender] keeps the text of page [pageNumber] only *)
    pdfParse_text : Bytes -> nat -> Result string;
    (** [a.localeCompare(b)]: negative, zero or positive *)
    localeCompare : string -> string -> Z;
    (** [new Date().toLocaleString('en-IN', ...)] at the time of the run *)
    dateTimeText : string;
    (** [font.widthOfTextAtSize(text, size)]; it throws when the font
        cannot encode a character of [text] *)
    widthOfTextAtSize : Font -> string -> Q -> Result Q }.

Record Settings : Type := mkSettings
  { mergePdf : bool;
    platform : string;
    margin : string;
    sortSku : bool;
    addDateTime : bool;
    addText : bool;
    customText : string }.

Definition with_margin (s : Settings) (m : string) : Settings :=
  mkSettings (mergePdf s) (platform s) m (sortSku s) (addDateTime s)
             (addText s) (customText s).

(** Truthiness of a string. *)
Definition nonEmpty (s : string) : bool := negb (String.eqb s EmptyString).

Section Pipeline.

Variable H : Host.

(** [extractSKUFromPage]: a failure of the text extraction is caught and
    gives [null]. *)
Definition extractSKUFromPage (pdfBytes : Bytes) (pageNumber : nat)
  : option string :=
  match pdfParse_text H pdfBytes pageNumber with
  | Ok text => extractSKU text
  | Err _ => None
  end.

(* --------------------------------------------------------------- *)
(** *** Step 1: merge or load *)

Definition readFile_undefined_message : string :=
  ("The " ++ dquote ++ "path" ++ dquote
   ++ " argument must be of type string or an instance of Buffer or URL. Received undefined")%string.

(** The body of the merge loop, for one file. *)
Definition merge_step (pdfDoc : Document) (filePath : string)
  : Result Document :=
  pdfBytes <- readFile H filePath ;;
  srcDoc <- PDFDocument_load H pdfBytes ;;
  pages <- copyPages srcDoc (getPageIndices srcDoc) ;;
  Ok (fold_left addPage pages pdfDoc).

Definition loadStage (filePaths : list string) (settings : Settings)
  : Result Document :=
  if mergePdf settings && Nat.ltb 1 (List.length filePaths) then
    foldM merge_step filePaths PDFDocument_create
  else
    match nth_error filePaths 0 with
    | Some filePath =>
        pdfBytes <- readFile H filePath ;;
        PDFDocument_load H pdfBytes
    | None => Err readFile_undefined_message
    end.

(* --------------------------------------------------------------- *)
(** *** Step 2: crop *)

Definition cropStage (pdfDoc : Document) (settings : Settings)
  : Result Document :=
  let preset := getPlatformPreset (platform settings) in
  if String.eqb (platform settings) "flipkart" then
    match cropBox_of preset with
    | Some cropBox => cropFlipkart pdfDoc cropBox
    | None => Ok pdfDoc
    end
  else if nonEmpty (margin settings)
          && negb (String.eqb (margin settings) "0") then
    match parseInt (margin settings) with
    | Some marginPx => Ok (applyMarginCrop pdfDoc (inject_Z marginPx))
    | None =>
        (* [NaN]: both comparisons of the guard are false on every page *)
        Ok pdfDoc
    end
  else Ok pdfDoc.

(* --------------------------------------------------------------- *)
(** *** Step 3: sort by SKU *)

Record PageData : Type := mkPageData
  { index : nat;
    sku : string }.

Definition fallbackKey (i : nat) : string :=
  ("zzz_no_sku_" ++ padStart 4 "0" (String_of_nat i))%string.

(** [sku || fallback]: [null] and the empty string are falsy. *)
Definition sortKey (extracted : option string) (i : nat) : string :=
  match extracted with
  | Some s => if nonEmpty s then s else fallbackKey i
  | None => fallbackKey i
  end.

Definition collectPageData (currentPdfBytes : Bytes) (pageCount : nat)
  : list PageData :=
  map (fun i =>
         mkPageData i (sortKey (extractSKUFromPage currentPdfBytes (i + 1)) i))
      (seq 0 pageCount).

(** The comparator handed to [pageData.sort]. *)
Definition compareSku (a b : PageData) : Z :=
  let skuA := toUpperCase (sku a) in
  let skuB := toUpperCase (sku b) in
  localeCompare H skuA skuB.

(** [Array.prototype.sort] is stable: each element, taken in array
    order, goes before the first already placed element it compares
    below. *)
Fixpoint insertSorted {A : Type} (cmp : A -> A -> Z) (pivot : A)
  (sorted : list A) : list A :=
  match sorted with
  | [] => [pivot]
  | e :: rest =>
      if (cmp pivot e <? 0)%Z then pivot :: e :: rest
      else e :: insertSorted cmp pivot rest
  end.

Definition sortBy {A : Type} (cmp : A -> A -> Z) (l : list A) : list A :=
  fold_left (fun sorted pivot => insertSorted cmp pivot sorted) l [].

Definition sort_step (pdfDoc : Document) (sortedPdf : Document)
  (data : PageData) : Result Document :=
  copiedPage <- copyOnePage pdfDoc (index data) ;;
  Ok (addPage sortedPdf copiedPage).

Definition sortStage (pdfDoc : Document) (settings : Settings)
  : Result Document :=
  if sortSku settings then
    let pageCount := getPageCount pdfDoc in
    currentPdfBytes <- save H pdfDoc ;;
    let pageData := collectPageData currentPdfBytes pageCount in
    let pageData := sortBy compareSku pageData in
    foldM (sort_step pdfDoc) pageData PDFDocument_create
  else Ok pdfDoc.

(* --------------------------------------------------------------- *)
(** *** Steps 4 and 5: stamps *)

(** The body of the loop of [addDateTime], on one page.  The text is
    measured before it is drawn: a text the font cannot encode makes
    [widthOfTextAtSize] throw, and [drawText] is not reached. *)
Definition addDateTime_page (text : string) (page : Page) : Result Page :=
  let '(width, height) := getSize page in
  textWidth <- widthOfTextAtSize H Helvetica text 8 ;;
  Ok (drawText (mkDrawText text (width - textWidth - 10)%Q 10 8 Helvetica
                           (0.3, 0.3, 0.3)%Q) page).

Definition addDateTimeStamp (pdfDoc : Document) : Result Document :=
  mapM (addDateTime_page (dateTimeText H)) (getPages pdfDoc).

(** The body of the loop of [addCustomText], on one page. *)
Definition addCustomText_page (text : string) (page : Page) : Result Page :=
  let '(width, height) := getSize page in
  textWidth <- widthOfTextAtSize H HelveticaBold text 12 ;;
  Ok (drawText (mkDrawText text ((width - textWidth) / 2)%Q (height - 25)%Q 12
                           HelveticaBold (0, 0, 0)%Q) page).

Definition addCustomText (pdfDoc : Document) (text : string)
  : Result Document :=
  if negb (nonEmpty text) || String.eqb (trim text) EmptyString then Ok pdfDoc
  else mapM (addCustomText_page text) (getPages pdfDoc).

Definition stampStage (pdfDoc : Document) (settings : Settings)
  : Result Document :=
  pdfDoc <-
    (if addDateTime settings then addDateTimeStamp pdfDoc else Ok pdfDoc) ;;
  if addText settings && nonEmpty (customText settings)
  then addCustomText pdfDoc (customText settings)
  else Ok pdfDoc.

(* --------------------------------------------------------------- *)
(** *** [processPDF] *)

(** The document handed to the final [pdfDoc.save()]. *)
Definition processDocument (filePaths : list string) (settings : Settings)
  : Result Document :=
  pdfDoc <- loadStage filePaths settings ;;
  pdfDoc <- cropStage pdfDoc settings ;;
  pdfDoc <- sortStage pdfDoc settings ;;
  stampStage pdfDoc settings.

Definition failure_prefix : string := "PDF processing failed: ".

(** The [try] block followed by the [catch] clause. *)
Definition processPDF (filePaths : list string) (settings : Settings)
  : Result Bytes :=
  match (pdfDoc <- processDocument filePaths settings ;; save H pdfDoc) with
  | Ok pdfBytes => Ok pdfBytes
  | Err message => Err (failure_prefix ++ message)%string
  end.

End Pipeline.

(* ================================================================= *)
(** ** An in-memory host, to run the pipeline on concrete files *)

Module MemoryHost.

Definition a4 : Rect := mkRect 0 0 595 842.

Definition textPage (text : string) : Page := mkPage a4 None text [].

(** A file is the texts of its pages, each closed by a zero byte. *)
Definition encode (d : Document) : Bytes :=
  flat_map (fun p => list_byte_of_string (content p) ++ [Byte.x00]) d.

Fixpoint splitPages (bs : Bytes) (cur : list Byte.byte) : list string :=
  match bs with
  | [] => []
  | b :: bs' =>
      if Byte.eqb b Byte.x00
      then string_of_list_byte (rev cur) :: splitPages bs' []
      else splitPages bs' (b :: cur)
  end.

Definition decode (bs : Bytes) : Document :=
  map textPage (splitPages bs []).

Fixpoint lookupFile (files : list (string * Bytes)) (path : string)
  : Result Bytes :=
  match files with
  | [] => Err "ENOENT: no such file or directory"
  | (name, bs) :: files' =>
      if String.eqb name path then Ok bs else lookupFile files' path
  end.

Definition pageText (bs : Bytes) (pageNumber : nat) : Result string :=
  match nth_error (splitPages bs []) (pageNumber - 1) with
  | Some text => Ok text
  | None => Err "Invalid page request"
  end.

(** Code-unit order, as the sign of the first difference. *)
Fixpoint codeUnitCompare (a b : string) : Z :=
  match a, b with
  | EmptyString, EmptyString => 0
  | EmptyString, String _ _ => -1
  | String _ _, EmptyString => 1
  | String x a', String y b' =>
      if Nat.ltb (code x) (code y) then -1
      else if Nat.ltb (code y) (code x) then 1
      else codeUnitCompare a' b'
  end.

(** The code units a standard font encodes: the printable ones. *)
Definition encodable (a : ascii) : bool :=
  between 32 126 a || between 160 255 a.

Definition hexDigit (n : nat) : ascii :=
  if Nat.ltb n 10 then ascii_of_nat (48 + n) else ascii_of_nat (87 + n).

Definition cannotEncode (a : ascii) : string :=
  ("WinAnsi cannot encode " ++ dquote ++ String a EmptyString ++ dquote
   ++ " (0x00"
   ++ String (hexDigit (code a / 16)) (String (hexDigit (code a mod 16)) ")"))%string.

(** Half the size per character, for a text the font encodes; the error
    of the first character it does not encode otherwise. *)
Fixpoint measure (text : string) (size : Q) : Result Q :=
  match text with
  | EmptyString => Ok 0%Q
  | String a text' =>
      if encodable a then w <- measure text' size ;; Ok (size / 2 + w)%Q
      else Err (cannotEncode a)
  end.

Definition host (files : list (string * Bytes)) : Host :=
  mkHost (lookupFile files)
         (fun bs => Ok (decode bs))
         (fun d => Ok (encode d))
         pageText
         codeUnitCompare
         "02/11/2026, 10:15:00 am"
         (fun _ text size => measure text size).

Definition fileA : Document := [textPage "1 zzz_z | A"; textPage EmptyString].
Definition fileB : Document := [textPage "1 sp_megha red chiku | MFTEXO"].

Definition disk : list (string * Bytes) :=
  [("a.pdf", encode fileA); ("b.pdf", encode fileB)].

Definition settings (merge : bool) (platform margin : string) (sort : bool)
  : Settings :=
  mkSettings merge platform margin sort false false EmptyString.

End MemoryHost.

(* ================================================================= *)
(** ** The upload route ([app.post('/upload', ...)]) *)

(** A file as multer hands it over in [req.files]. *)
Record UploadedFile : Type := mkUploadedFile
  { file_path : string;
    originalname : string }.

(** The settings object the route builds from [req.body]. *)
Record UploadSettings : Type := mkUploadSettings
  { up_mergePdf : bool;
    up_addDateTime : bool;
    up_sortSku : bool;
    up_keepInvoice : bool;
    up_addText : bool;
    up_customText : string;
    up_multiOrders : bool;
    up_margin : string;
    up_platform : string }.

(** The fields [processPDF] reads. *)
Definition toSettings (u : UploadSettings) : Settings :=
  mkSettings (up_mergePdf u) (up_platform u) (up_margin u) (up_sortSku u)
             (up_addDateTime u) (up_addText u) (up_customText u).

Inductive Response : Type :=
| BadRequest (error : string)
| Success (downloadUrl filename : string) (settings : UploadSettings)
| ServerError (message : string).

(** Calls made on the file system by the route itself. *)
Inductive FsOp : Type :=
| WriteFile (path : string) (data : Bytes)
| Unlink (path : string).

Record Server : Type := mkServer
  { server_host : Host;
    (** [fs.existsSync(path)] *)
    existsSync : string -> bool;
    (** [fs.promises.writeFile(path, data)] *)
    writeFile : string -> Bytes -> Result unit;
    (** [Date.now()] when the output is named *)
    Date_now : nat;
    (** [path.join(a, b)] *)
    path_join : string -> string -> string }.

(** [req.body.field === 'true'] *)
Definition field_is_true (v : option string) : bool :=
  match v with
  | Some s => String.eqb s "true"
  | None => false
  end.

(** [req.body.field || fallback] *)
Definition field_or (v : option string) (fallback : string) : string :=
  match v with
  | Some s => if nonEmpty s then s else fallback
  | None => fallback
  end.

Definition settingsOfBody (body : string -> option string) : UploadSettings :=
  mkUploadSettings
    (field_is_true (body "mergePdf"))
    (field_is_true (body "addDateTime"))
    (field_is_true (body "sortSku"))
    (field_is_true (body "keepInvoice"))
    (field_is_true (body "addText"))
    (field_or (body "customText") EmptyString)
    (field_is_true (body "multiOrders"))
    (field_or (body "margin") "50")
    (field_or (body "platform") "custom").

(** [n.toString()] for an integral number, as the margins of
    [CROP_PRESETS] are. *)
Definition Number_toString (q : Q) : string :=
  NilZero.string_of_int (Z.to_int (Qnum q)).

Definition toString_of_undefined_message : string :=
  "Cannot read properties of undefined (reading 'toString')".

Definition margin_of_undefined_message : string :=
  "Cannot read properties of undefined (reading 'margin')".

(** [preset.margin.toString()] *)
Definition preset_margin_toString (preset : PresetValue) : Result string :=
  match preset with
  | PresetObject p =>
      match preset_margin p with
      | Some m => Ok (Number_toString m)
      | None => Err toString_of_undefined_message
      end
  | Inherited _ => Err toString_of_undefined_message
  | Undefined => Err margin_of_undefined_message
  end.

Definition set_margin (u : UploadSettings) (m : string) : UploadSettings :=
  mkUploadSettings (up_mergePdf u) (up_addDateTime u) (up_sortSku u)
                   (up_keepInvoice u) (up_addText u) (up_customText u)
                   (up_multiOrders u) m (up_platform u).

(** The block under "Apply platform preset". *)
Definition applyPlatformPreset (settings : UploadSettings)
  : Result UploadSettings :=
  let preset := getPlatformPreset (up_platform settings) in
  if negb (nonEmpty (up_margin settings))
     || String.eqb (up_margin settings) "50"
  then m <- preset_margin_toString preset ;; Ok (set_margin settings m)
  else Ok settings.

Definition originalname_of_undefined_message : string :=
  "Cannot read properties of undefined (reading 'originalname')".

Definition outputFilename (timestamp : nat) (settings : UploadSettings)
  (uploadedFiles : list UploadedFile) : Result string :=
  if up_mergePdf settings && Nat.ltb 1 (List.length uploadedFiles) then
    Ok ("merged-" ++ String_of_nat timestamp ++ ".pdf")%string
  else
    match nth_error uploadedFiles 0 with
    | Some file =>
        Ok ("processed-" ++ String_of_nat timestamp ++ "-"
            ++ originalname file)%string
    | None => Err originalname_of_undefined_message
    end.

(** The [try] block, past the check on [req.files]: the response and the
    file-system calls made, or the error thrown. *)
Definition uploadTry (S : Server) (uploadedFiles : list UploadedFile)
  (body : string -> option string) : Result (Response * list FsOp) :=
  let settings := settingsOfBody body in
  let filePaths := map file_path uploadedFiles in
  settings <- applyPlatformPreset settings ;;
  processedPdfBytes <-
    processPDF (server_host S) filePaths (toSettings settings) ;;
  name <- outputFilename (Date_now S) settings uploadedFiles ;;
  let outputPath := path_join S "cropped" name in
  _ <- writeFile S outputPath processedPdfBytes ;;
  Ok (Success ("/cropped/" ++ name)%string name settings,
      WriteFile outputPath processedPdfBytes :: map Unlink filePaths).

(** The route handler; [None] is an absent [req.files]. *)
Definition uploadHandler (S : Server)
  (uploadedFiles : option (list UploadedFile))
  (body : string -> option string) : Response * list FsOp :=
  match uploadedFiles with
  | None => (BadRequest "No files uploaded", [])
  | Some [] => (BadRequest "No files uploaded", [])
  | Some files =>
      match uploadTry S files body with
      | Ok outcome => outcome
      | Err message =>
          (ServerError message,
           map Unlink (filter (existsSync S) (map file_path files)))
      end
  end.

(* ================================================================= *)
(** ** Notions used to state the properties *)

(** The document a path denotes on the host: [fs.readFile] followed by
    [PDFDocument.load], as both branches of step 1 do. *)
Definition loadFile (H : Host) (filePath : string) : Result Document :=
  pdfBytes <- readFile H filePath ;; PDFDocument_load H pdfBytes.

(** A stage of [processPDF] fails with [message]: the stages before it
    have returned and it throws.  The load step throws when a file cannot
    be read or parsed, the sort step when the document cannot be saved,
    the stamps when the font cannot encode the text, the last step when
    the document cannot be saved; the crop step has no operation that
    throws on a loaded document. *)
Inductive StageFails (H : Host) (filePaths : list string) (settings : Settings)
  (message : string) : Prop :=
| fails_load :
    loadStage H filePaths settings = Err message ->
    StageFails H filePaths settings message
| fails_sort (loaded cropped : Document) :
    loadStage H filePaths settings = Ok loaded ->
    cropStage loaded settings = Ok cropped ->
    sortStage H cropped settings = Err message ->
    StageFails H filePaths settings message
| fails_stamp (loaded cropped sorted : Document) :
    loadStage H filePaths settings = Ok loaded ->
    cropStage loaded settings = Ok cropped ->
    sortStage H cropped settings = Ok sorted ->
    stampStage H sorted settings = Err message ->
    StageFails H filePaths settings message
| fails_save (pdfDoc : Document) :
    processDocument H filePaths settings = Ok pdfDoc ->
    save H pdfDoc = Err message ->
    StageFails H filePaths settings message.

(** *** Capture states of the matcher *)

(** The state holds a finished, non-empty capture. *)
Definition HasCapture (st : Captures) : Prop :=
  exists g, group1 st = Some g /\ g <> EmptyString.

(** The group is open. *)
Definition Opened (st : Captures) : Prop := exists l, cur st = Some l.

(** The group is open and has consumed a character. *)
Definition Inside (st : Captures) : Prop :=
  exists l, cur st = Some l /\ l <> [].

(** From a state satisfying [I], every match of [p] ends with a
    non-empty capture. *)
Definition Lifts (I : Captures -> Prop) (p : list Item) : Prop :=
  forall s st st', I st -> matchItems p s st = Some st' -> HasCapture st'.

(** *** Positions of a text, alphabets of a capture *)

(** [Suffix s' s]: the text [s'] is what is left of [s] from some start
    position on. *)
Inductive Suffix : string -> string -> Prop :=
| suffix_here (s : string) : Suffix s s
| suffix_later (a : ascii) (s' s : string) :
    Suffix s' s -> Suffix s' (String a s).

Definition allChars (P : ascii -> bool) (s : string) : bool :=
  forallb P (list_ascii_of_string s).

(** The finished capture, if any, is made of characters of [P]. *)
Definition CaptureIn (P : ascii -> bool) (st : Captures) : Prop :=
  forall g, group1 st = Some g -> allChars P g = true.

Definition OutsideGroup (P : ascii -> bool) (st : Captures) : Prop :=
  cur st = None /\ CaptureIn P st.

Definition InsideGroup (P : ascii -> bool) (st : Captures) : Prop :=
  (exists l, cur st = Some l /\ forallb P l = true) /\ CaptureIn P st.

(** From a state satisfying [I], every match of [p] ends in a state
    satisfying [J]. *)
Definition Keeps (I J : Captures -> Prop) (p : list Item) : Prop :=
  forall s st st', I st -> matchItems p s st = Some st' -> J st'.

(** No white space at the start. *)
Definition startsClean (s : string) : Prop :=
  match s with
  | EmptyString => True
  | String a _ => isSpace a = false
  end.

(** The width the in-memory host measures for a text it encodes. *)
Definition measured (text : string) (size : Q) : Q :=
  match MemoryHost.measure text size with
  | Ok w => w
  | Err _ => 0%Q
  end.

(** An in-memory server around the in-memory host. *)
Definition memoryServer (files : list (string * Bytes)) : Server :=
  mkServer (MemoryHost.host files)
           (fun path => existsb (fun entry => String.eqb (fst entry) path) files)
           (fun _ _ => Ok tt)
           1700
           (fun a b => (a ++ "/" ++ b)%string).

(** *** Order of the sorted pages *)

(** [a] may stand before [b] in the sorted array: [b] does not compare
    below [a], and if [a] does not compare below [b] either (a tie), [a]
    was before [b] in the document. *)
Definition SkuOrder (H : Host) (a b : PageData) : Prop :=
  (0 <= compareSku H b a)%Z /\
  ((0 <= compareSku H a b)%Z -> (index a < index b)%nat).

(** The collation is consistent on the keys of [data]: a key below
    another is not above it, and below carries over to every key that is
    not below the second one. *)
Definition ConsistentOn (H : Host) (data : list PageData) : Prop :=
  (forall a b, In a data -> In b data ->
               (compareSku H a b < 0)%Z -> (0 <= compareSku H b a)%Z) /\
  (forall a b c, In a data -> In b data -> In c data ->
                 (compareSku H a b < 0)%Z -> (0 <= compareSku H c b)%Z ->
                 (compareSku H a c < 0)%Z).

Definition with_mergePdf (s : Settings) (merge : bool) : Settings :=
  mkSettings merge (platform s) (margin s) (sortSku s) (addDateTime s)
             (addText s) (customText s).

(** [sku] is [capture] without the white space at its two ends. *)
Definition Trimmed (capture sku : string) : Prop :=
  exists before after,
    capture = (before ++ sku ++ after)%string /\
    allChars isSpace before = true /\
    allChars isSpace after = true /\
    startsClean sku /\
    startsClean (reverse sku).

(** The options of the two [drawText] calls, for a measured text width. *)
Definition dateStamp (text : string) (textWidth : Q) (page : Page) : DrawText :=
  mkDrawText text (rwidth (mediaBox page) - textWidth - 10)%Q 10 8 Helvetica
             (0.3, 0.3, 0.3)%Q.

Definition textStamp (text : string) (textWidth : Q) (page : Page) : DrawText :=
  mkDrawText text ((rwidth (mediaBox page) - textWidth) / 2)%Q
             (rheight (mediaBox page) - 25)%Q 12 HelveticaBold (0, 0, 0)%Q.

(** The custom text is drawn: [addText] is set and the text is not
    blank. *)
Definition drawsText (s : Settings) : bool :=
  addText s && negb (String.eqb (trim (customText s)) EmptyString).

(** A page after the stamps, for the measured widths of the two texts. *)
Definition stamped (H : Host) (s : Settings) (dateWidth textWidth : Q)
  (page : Page) : Page :=
  mkPage (mediaBox page) (cropBox page) (content page)
         (drawn page
          ++ (if addDateTime s
              then [dateStamp (dateTimeText H) dateWidth page] else [])
          ++ (if drawsText s
              then [textStamp (customText s) textWidth page] else [])).

(** The boxes and the content of a page. *)
Definition pageBoxes (p : Page) : Rect * option Rect * string :=
  (mediaBox p, cropBox p, content p).

(** What a page was loaded with. *)
Definition loadedPart (p : Page) : Rect * string := (mediaBox p, content p).

Definition with_platform (s : Settings) (p : string) : Settings :=
  mkSettings (mergePdf s) p (margin s) (sortSku s) (addDateTime s)
             (addText s) (customText s).

(* ================================================================= *)
(** * Properties *)

(* ================================================================= *)
(** ** Preset registry *)

Lemma getPlatformPreset_own (platform : string) (p : Preset) :
  ownProperty CROP_PRESETS platform = Some p ->
  getPlatformPreset platform = PresetObject p.
Proof.
  intros Hown. unfold getPlatformPreset, getProperty. rewrite Hown. reflexivity.
Qed.

Lemma getPlatformPreset_fallback (platform : string) :
  ownProperty CROP_PRESETS platform = None ->
  inb platform Object_prototype = false ->
  getPlatformPreset platform = PresetObject custom_preset.
Proof.
  intros Hown Hproto. unfold getPlatformPreset, getProperty.
  rewrite Hown, Hproto. reflexivity.
Qed.

Lemma getPlatformPreset_names :
  getPlatformPreset "flipkart" = PresetObject flipkart_preset /\
  getPlatformPreset "meesho" = PresetObject meesho_preset /\
  getPlatformPreset "amazon" = PresetObject amazon_preset /\
  getPlatformPreset "citymall" = PresetObject citymall_preset /\
  getPlatformPreset "custom" = PresetObject custom_preset /\
  getPlatformPreset "unknown-platform" = PresetObject custom_preset.
Proof. repeat split; reflexivity. Qed.

(** C6.  The platform ["constructor"] is none of the five preset names,
    yet [getPlatformPreset] does not answer the custom preset for it: the
    property read finds [Object.prototype.constructor], which is truthy, and
    returns it; that value has neither a margin nor a crop box. *)
Theorem getPlatformPreset_constructor :
  ownProperty CROP_PRESETS "constructor" = None /\
  getPlatformPreset "constructor" = Inherited "constructor" /\
  getPlatformPreset "constructor" <> PresetObject custom_preset.
Proof.
  repeat split; try reflexivity. discriminate.
Qed.

(* ================================================================= *)
(** ** Copying pages *)

Lemma copyPages_seq (pre d : Document) :
  copyPages (pre ++ d) (seq (List.length pre) (List.length d)) = Ok d.
Proof.
  revert pre. induction d as [|p d IH]; intros pre; simpl.
  - reflexivity.
  - rewrite nth_error_app2 by lia. rewrite Nat.sub_diag. simpl.
    replace (pre ++ p :: d) with ((pre ++ [p]) ++ d)
      by (rewrite <- app_assoc; reflexivity).
    replace (Datatypes.S (List.length pre)) with (List.length (pre ++ [p]))
      by (rewrite length_app; simpl; lia).
    rewrite IH. reflexivity.
Qed.

Lemma copyPages_all (d : Document) : copyPages d (getPageIndices d) = Ok d.
Proof. exact (copyPages_seq [] d). Qed.

Lemma copyOnePage_nth (d : Document) (i : nat) (p : Page) :
  nth_error d i = Some p -> copyOnePage d i = Ok p.
Proof.
  intros Hnth. unfold copyOnePage. simpl. rewrite Hnth. reflexivity.
Qed.

Lemma copyOnePage_inv (d : Document) (i : nat) (p : Page) :
  copyOnePage d i = Ok p -> nth_error d i = Some p.
Proof.
  unfold copyOnePage. simpl. destruct (nth_error d i); simpl.
  - intros E. injection E as ->. reflexivity.
  - discriminate.
Qed.

Lemma fold_addPage (pages acc : Document) :
  fold_left addPage pages acc = acc ++ pages.
Proof.
  revert acc. induction pages as [|p pages IH]; intros acc; simpl.
  - now rewrite app_nil_r.
  - rewrite IH. unfold addPage. now rewrite <- app_assoc.
Qed.

(* ================================================================= *)
(** ** Crop engine *)

Lemma cropFlipkart_loop (pre d acc : Document) :
  foldM (cropFlipkart_step (pre ++ d)) (seq (List.length pre) (List.length d)) acc
  = Ok (acc ++ map (setCropBox 165 460 265 360) d).
Proof.
  revert pre acc. induction d as [|p d IH]; intros pre acc; simpl.
  - now rewrite app_nil_r.
  - unfold cropFlipkart_step at 1.
    rewrite (copyOnePage_nth (pre ++ p :: d) (List.length pre) p)
      by (rewrite nth_error_app2 by lia; now rewrite Nat.sub_diag).
    simpl.
    replace (pre ++ p :: d) with ((pre ++ [p]) ++ d)
      by (rewrite <- app_assoc; reflexivity).
    replace (Datatypes.S (List.length pre)) with (List.length (pre ++ [p]))
      by (rewrite length_app; simpl; lia).
    rewrite IH. unfold addPage. now rewrite <- app_assoc.
Qed.

Lemma cropFlipkart_map (pdfDoc : Document) (cropBox : CropBoxPreset) :
  cropFlipkart pdfDoc cropBox = Ok (map (setCropBox 165 460 265 360) pdfDoc).
Proof. exact (cropFlipkart_loop [] pdfDoc []). Qed.

(** C10.  [cropFlipkart] gives every copied page the crop box
    (165, 460, 265, 360) whatever [cropBox] argument it receives; the
    [cropBox] of the flipkart entry of [CROP_PRESETS] is (272, 253, 346, 553),
    a different rectangle, so the stored box is not the one applied. *)
Theorem cropFlipkart_ignores_preset_box :
  (forall (pdfDoc : Document) (box : CropBoxPreset),
      exists newPdf,
        cropFlipkart pdfDoc box = Ok newPdf /\
        List.length newPdf = List.length pdfDoc /\
        Forall (fun page => cropBox page = Some (mkRect 165 460 265 360))
               newPdf) /\
  (exists stored,
      cropBox_of (getPlatformPreset "flipkart") = Some stored /\
      (cb_x stored, cb_y stored, cb_width stored, cb_height stored)
      = (272, 253, 346, 553)%Q /\
      ~ (cb_x stored == 165)%Q /\ ~ (cb_y stored == 460)%Q /\
      ~ (cb_width stored == 265)%Q /\ ~ (cb_height stored == 360)%Q).
Proof.
  split.
  - intros pdfDoc box. exists (map (setCropBox 165 460 265 360) pdfDoc).
    split; [apply cropFlipkart_map|]. split; [apply length_map|].
    apply Forall_forall. intros page Hin. apply in_map_iff in Hin.
    destruct Hin as [q [<- _]]. reflexivity.
  - eexists. split; [reflexivity|]. split; [reflexivity|].
    repeat split; intros Heq; vm_compute in Heq; discriminate.
Qed.

Lemma Qgtb_spec (a b : Q) : Qgtb a b = true <-> (b < a)%Q.
Proof.
  unfold Qgtb. rewrite negb_true_iff. split.
  - intros Hb. apply Qnot_le_lt. intros Hle.
    apply Qle_bool_iff in Hle. congruence.
  - intros Hlt. destruct (Qle_bool a b) eqn:E; [|reflexivity].
    apply Qle_bool_iff in E. exfalso. exact (Qlt_not_le _ _ Hlt E).
Qed.

Lemma marginCropPage_cropped (m : Q) (page : Page) :
  (0 < rwidth (mediaBox page) - 2 * m)%Q ->
  (0 < rheight (mediaBox page) - 2 * m)%Q ->
  marginCropPage m page
  = setCropBox m m (rwidth (mediaBox page) - 2 * m)
               (rheight (mediaBox page) - 2 * m) page.
Proof.
  intros Hw Hh. unfold marginCropPage, getSize.
  apply Qgtb_spec in Hw. apply Qgtb_spec in Hh. now rewrite Hw, Hh.
Qed.

Lemma marginCropPage_skipped (m : Q) (page : Page) :
  ~ ((0 < rwidth (mediaBox page) - 2 * m)%Q /\
     (0 < rheight (mediaBox page) - 2 * m)%Q) ->
  marginCropPage m page = page.
Proof.
  intros Hno. unfold marginCropPage, getSize.
  destruct (Qgtb (rwidth (mediaBox page) - 2 * m) 0) eqn:Ew; simpl;
    [|reflexivity].
  destruct (Qgtb (rheight (mediaBox page) - 2 * m) 0) eqn:Eh; [|reflexivity].
  exfalso. apply Hno. split; now apply Qgtb_spec.
Qed.

Lemma marginCropPage_mediaBox (m : Q) (page : Page) :
  mediaBox (marginCropPage m page) = mediaBox page.
Proof.
  unfold marginCropPage, getSize.
  now destruct (Qgtb _ 0 && Qgtb _ 0).
Qed.

(** C3.  On a page of width [w] and height [h], the margin crop with the
    integer margin [m] sets the crop box to (m, m, w - 2m, h - 2m) when
    both [w - 2m] and [h - 2m] are positive, and leaves the page as it
    was otherwise; [applyMarginCrop] always returns. *)
Theorem applyMarginCrop_crop_box
  (pdfDoc : Document) (m : Z) (i : nat) (page : Page) (w h : Q) :
  nth_error pdfDoc i = Some page ->
  getSize page = (w, h) ->
  exists page',
    nth_error (applyMarginCrop pdfDoc (inject_Z m)) i = Some page' /\
    ((0 < w - 2 * inject_Z m /\ 0 < h - 2 * inject_Z m)%Q ->
     cropBox page'
     = Some (mkRect (inject_Z m) (inject_Z m)
                    (w - 2 * inject_Z m) (h - 2 * inject_Z m)) /\
     mediaBox page' = mediaBox page /\
     content page' = content page /\ drawn page' = drawn page) /\
    (~ (0 < w - 2 * inject_Z m /\ 0 < h - 2 * inject_Z m)%Q ->
     page' = page).
Proof.
  intros Hnth Hsize. exists (marginCropPage (inject_Z m) page).
  unfold getSize in Hsize. injection Hsize as Hw Hh. subst w h.
  split.
  - unfold applyMarginCrop, getPages. rewrite nth_error_map, Hnth.
    reflexivity.
  - split.
    + intros [Hw Hh]. rewrite marginCropPage_cropped by assumption.
      repeat split.
    + apply marginCropPage_skipped.
Qed.

Lemma applyMarginCrop_crop_box_witness :
  exists page',
    nth_error (applyMarginCrop [MemoryHost.textPage "label"] (inject_Z 40)) 0
    = Some page' /\
    ((0 < 595 - 2 * inject_Z 40 /\ 0 < 842 - 2 * inject_Z 40)%Q ->
     cropBox page'
     = Some (mkRect (inject_Z 40) (inject_Z 40)
                    (595 - 2 * inject_Z 40) (842 - 2 * inject_Z 40)) /\
     mediaBox page' = mediaBox (MemoryHost.textPage "label") /\
     content page' = content (MemoryHost.textPage "label") /\
     drawn page' = drawn (MemoryHost.textPage "label")) /\
    (~ (0 < 595 - 2 * inject_Z 40 /\ 0 < 842 - 2 * inject_Z 40)%Q ->
     page' = MemoryHost.textPage "label").
Proof.
  apply (applyMarginCrop_crop_box
           [MemoryHost.textPage "label"] 40 0 (MemoryHost.textPage "label")
           595 842); reflexivity.
Defined.

(** C9, as stated, at an A4 page and margin 40: the second application
    does not narrow the crop box; both applications give
    (40, 40, 515, 762). *)
Lemma marginCrop_twice_same_box :
  let page := mkPage (mkRect 0 0 595 842) None "label" [] in
  let first := applyMarginCrop [page] 40 in
  let second := applyMarginCrop first 40 in
  map getCropBox first = [mkRect 40 40 (595 - 2 * 40) (842 - 2 * 40)] /\
  map getCropBox second = map getCropBox first /\
  ~ (exists a b, map getCropBox first = [a] /\ map getCropBox second = [b] /\
                 ((rwidth b < rwidth a)%Q \/ (rheight b < rheight a)%Q)).
Proof.
  cbv zeta. split; [reflexivity|]. split; [reflexivity|].
  intros [a [b [Ha [Hb Hlt]]]].
  vm_compute in Ha, Hb. injection Ha as <-. injection Hb as <-.
  destruct Hlt as [Hlt|Hlt]; vm_compute in Hlt; discriminate.
Qed.

(** C9, amended.  The margin crop is computed from the page size, which
    [setCropBox] does not change: applying it twice with the same margin
    gives the same document as applying it once, for every margin. *)
Theorem applyMarginCrop_idempotent (pdfDoc : Document) (m : Q) :
  applyMarginCrop (applyMarginCrop pdfDoc m) m = applyMarginCrop pdfDoc m.
Proof.
  unfold applyMarginCrop, getPages. rewrite map_map. apply map_ext.
  intros page. unfold marginCropPage at 1.
  unfold getSize. rewrite marginCropPage_mediaBox.
  unfold marginCropPage, getSize.
  destruct (Qgtb (rwidth (mediaBox page) - 2 * m) 0
            && Qgtb (rheight (mediaBox page) - 2 * m) 0); reflexivity.
Qed.

(** C7.  Neither crop mode changes the number of pages, and the crop
    stage of [processPDF] returns, for every document and every settings
    value, a document with as many pages as it was given. *)
Theorem crop_keeps_page_count :
  (forall (pdfDoc : Document) (box : CropBoxPreset),
      exists newPdf, cropFlipkart pdfDoc box = Ok newPdf /\
                     getPageCount newPdf = getPageCount pdfDoc) /\
  (forall (pdfDoc : Document) (marginPx : Q),
      getPageCount (applyMarginCrop pdfDoc marginPx) = getPageCount pdfDoc) /\
  (forall (pdfDoc : Document) (settings : Settings),
      exists cropped, cropStage pdfDoc settings = Ok cropped /\
                      getPageCount cropped = getPageCount pdfDoc).
Proof.
  assert (Hflip : forall pdfDoc box,
             exists newPdf, cropFlipkart pdfDoc box = Ok newPdf /\
                            getPageCount newPdf = getPageCount pdfDoc).
  { intros pdfDoc box. eexists. split; [apply cropFlipkart_map|].
    apply length_map. }
  assert (Hmargin : forall pdfDoc marginPx,
             getPageCount (applyMarginCrop pdfDoc marginPx)
             = getPageCount pdfDoc).
  { intros. apply length_map. }
  repeat split; try assumption.
  intros pdfDoc settings. unfold cropStage.
  destruct (String.eqb (platform settings) "flipkart").
  - destruct (cropBox_of (getPlatformPreset (platform settings))).
    + apply Hflip.
    + now exists pdfDoc.
  - destruct (nonEmpty (margin settings)
              && negb (String.eqb (margin settings) "0")).
    + destruct (parseInt (margin settings)).
      * eexists. split; [reflexivity|apply Hmargin].
      * now exists pdfDoc.
    + now exists pdfDoc.
Qed.

(* ================================================================= *)
(** ** Step 1: merge or load *)

Lemma merge_step_loaded (H : Host) (pdfDoc d : Document) (filePath : string) :
  loadFile H filePath = Ok d ->
  merge_step H pdfDoc filePath = Ok (pdfDoc ++ d).
Proof.
  unfold loadFile, merge_step. intros Hload.
  destruct (readFile H filePath) as [bs|]; simpl in *; [|discriminate].
  rewrite Hload. simpl. rewrite copyPages_all. simpl.
  now rewrite fold_addPage.
Qed.

Lemma merge_loop (H : Host) (filePaths : list string) (docs : list Document) :
  Forall2 (fun path d => loadFile H path = Ok d) filePaths docs ->
  forall pdfDoc,
    foldM (merge_step H) filePaths pdfDoc = Ok (pdfDoc ++ List.concat docs).
Proof.
  induction 1 as [|path d paths docs Hd _ IH]; intros pdfDoc; simpl.
  - now rewrite app_nil_r.
  - rewrite (merge_step_loaded H pdfDoc d path Hd). simpl.
    rewrite IH. now rewrite app_assoc.
Qed.

Lemma getPageCount_concat (docs : list Document) :
  getPageCount (List.concat docs) = list_sum (map getPageCount docs).
Proof.
  unfold getPageCount. induction docs as [|d docs IH]; simpl.
  - reflexivity.
  - now rewrite length_app, IH.
Qed.

(** C1.  With [mergePdf] set and more than one input file, the document
    after step 1 is the concatenation of the input documents, in input
    order, each with its own pages in order, and its page count is the
    sum of theirs.  With [mergePdf] unset, step 1 is the load of the first
    file alone: the other paths are not read, and the page count is the
    one of the first file. *)
Theorem loadStage_pages
  (H : Host) (filePaths : list string) (settings : Settings) :
  (mergePdf settings = true ->
   (1 < List.length filePaths)%nat ->
   forall docs : list Document,
     Forall2 (fun path d => loadFile H path = Ok d) filePaths docs ->
     loadStage H filePaths settings = Ok (List.concat docs) /\
     getPageCount (List.concat docs) = list_sum (map getPageCount docs)) /\
  (mergePdf settings = false ->
   forall (first : string) (rest : list string),
     filePaths = first :: rest ->
     loadStage H filePaths settings = loadFile H first /\
     forall d : Document,
       loadFile H first = Ok d ->
       exists loaded,
         loadStage H filePaths settings = Ok loaded /\
         loaded = d /\ getPageCount loaded = getPageCount d).
Proof.
  split.
  - intros Hmerge Hlen docs Hdocs. unfold loadStage. rewrite Hmerge.
    apply Nat.ltb_lt in Hlen. rewrite Hlen. simpl.
    rewrite (merge_loop H filePaths docs Hdocs). simpl.
    split; [reflexivity|apply getPageCount_concat].
  - intros Hmerge first rest ->.
    assert (Hfirst : loadStage H (first :: rest) settings = loadFile H first).
    { unfold loadStage. rewrite Hmerge. reflexivity. }
    split; [exact Hfirst|].
    intros d Hd. exists d. rewrite Hfirst. now repeat split.
Qed.

Lemma loadStage_pages_witness :
  (loadStage (MemoryHost.host MemoryHost.disk) ["a.pdf"; "b.pdf"]
             (MemoryHost.settings true "custom" "0" false)
   = Ok (List.concat [MemoryHost.fileA; MemoryHost.fileB]) /\
   getPageCount (List.concat [MemoryHost.fileA; MemoryHost.fileB])
   = list_sum (map getPageCount [MemoryHost.fileA; MemoryHost.fileB])) /\
  exists loaded,
    loadStage (MemoryHost.host MemoryHost.disk) ["a.pdf"; "b.pdf"]
              (MemoryHost.settings false "custom" "0" false)
    = Ok loaded /\
    loaded = MemoryHost.fileA /\
    getPageCount loaded = getPageCount MemoryHost.fileA.
Proof.
  split.
  - apply (proj1 (loadStage_pages
                    (MemoryHost.host MemoryHost.disk) ["a.pdf"; "b.pdf"]
                    (MemoryHost.settings true "custom" "0" false))).
    + reflexivity.
    + simpl. lia.
    + repeat constructor.
  - apply (proj2 (loadStage_pages
                    (MemoryHost.host MemoryHost.disk) ["a.pdf"; "b.pdf"]
                    (MemoryHost.settings false "custom" "0" false))
             eq_refl "a.pdf" ["b.pdf"] eq_refl).
    reflexivity.
Defined.

(* ================================================================= *)
(** ** Steps 3 to 5 keep the crop boxes *)

Section PageInvariant.

Variable H : Host.
Variable P : Page -> Prop.

Lemma sort_loop_Forall (pdfDoc : Document) (pageData : list PageData) :
  Forall P pdfDoc ->
  forall sortedPdf result,
    Forall P sortedPdf ->
    foldM (sort_step pdfDoc) pageData sortedPdf = Ok result ->
    Forall P result.
Proof.
  intros Hdoc. induction pageData as [|data pageData IH];
    intros sortedPdf result Hacc Hrun; simpl in Hrun.
  - injection Hrun as <-. exact Hacc.
  - unfold sort_step at 1 in Hrun.
    destruct (copyOnePage pdfDoc (index data)) as [page|] eqn:Hcopy;
      simpl in Hrun; [|discriminate].
    apply (IH (addPage sortedPdf page)); [|exact Hrun].
    unfold addPage. apply Forall_app. split; [assumption|].
    constructor; [|constructor].
    apply copyOnePage_inv in Hcopy. apply nth_error_In in Hcopy.
    rewrite Forall_forall in Hdoc. now apply Hdoc.
Qed.

Lemma sortStage_Forall (pdfDoc sorted : Document) (settings : Settings) :
  Forall P pdfDoc ->
  sortStage H pdfDoc settings = Ok sorted ->
  Forall P sorted.
Proof.
  intros Hdoc. unfold sortStage. destruct (sortSku settings).
  - destruct (save H pdfDoc) as [bs|]; simpl; [|discriminate].
    apply sort_loop_Forall; [assumption|constructor].
  - intros E. injection E as <-. exact Hdoc.
Qed.

End PageInvariant.

(** A loop that measures the same text for every page and draws it. *)
Lemma mapM_measured (W : Result Q) (h : Q -> Page -> Page) (d : Document) :
  mapM (fun page => w <- W ;; Ok (h w page)) d
  = match d with
    | [] => Ok []
    | _ :: _ => w <- W ;; Ok (map (h w) d)
    end.
Proof.
  induction d as [|page d IH]; [reflexivity|].
  simpl mapM. rewrite IH. destruct W as [w|message]; simpl; [|reflexivity].
  now destruct d.
Qed.

Lemma addDateTimeStamp_run (H : Host) (d : Document) :
  addDateTimeStamp H d
  = match d with
    | [] => Ok []
    | _ :: _ =>
        w <- widthOfTextAtSize H Helvetica (dateTimeText H) 8 ;;
        Ok (map (fun page => drawText (dateStamp (dateTimeText H) w page) page)
                d)
    end.
Proof.
  unfold addDateTimeStamp, getPages.
  apply (mapM_measured
           (widthOfTextAtSize H Helvetica (dateTimeText H) 8)
           (fun w page => drawText (dateStamp (dateTimeText H) w page) page)).
Qed.

Lemma customText_step (H : Host) (s : Settings) (d : Document) :
  (if addText s && nonEmpty (customText s)
   then addCustomText H d (customText s) else Ok d)
  = if drawsText s then
      match d with
      | [] => Ok []
      | _ :: _ =>
          w <- widthOfTextAtSize H HelveticaBold (customText s) 12 ;;
          Ok (map (fun page =>
                     drawText (textStamp (customText s) w page) page) d)
      end
    else Ok d.
Proof.
  unfold drawsText, addCustomText, getPages, nonEmpty.
  generalize (customText s) as text. intros text.
  destruct (addText s); simpl; [|reflexivity].
  destruct (String.eqb_spec text EmptyString) as [->|Hne]; simpl.
  - reflexivity.
  - destruct (String.eqb (trim text) EmptyString); simpl; [reflexivity|].
    apply (mapM_measured
             (widthOfTextAtSize H HelveticaBold text 12)
             (fun w page => drawText (textStamp text w page) page)).
Qed.

(** The stamps, when they return: every page stamped for the measured
    widths, which are those of the two texts when there is a page. *)
Lemma stampStage_run (H : Host) (d d' : Document) (s : Settings) :
  stampStage H d s = Ok d' ->
  exists dateWidth textWidth,
    d' = map (stamped H s dateWidth textWidth) d /\
    (d <> [] -> addDateTime s = true ->
     widthOfTextAtSize H Helvetica (dateTimeText H) 8 = Ok dateWidth) /\
    (d <> [] -> drawsText s = true ->
     widthOfTextAtSize H HelveticaBold (customText s) 12 = Ok textWidth).
Proof.
  unfold stampStage.
  destruct d as [|page d].
  - destruct (addDateTime s); [rewrite addDateTimeStamp_run|];
      simpl bind; rewrite customText_step; intros E; exists 0%Q, 0%Q;
      (split; [destruct (drawsText s); now injection E as <-|]);
      split; intros Hne; now contradiction Hne.
  - rewrite addDateTimeStamp_run.
    destruct (addDateTime s) eqn:Hdate.
    + destruct (widthOfTextAtSize H Helvetica (dateTimeText H) 8)
        as [dateWidth|] eqn:Hw1; simpl bind; [|discriminate].
      rewrite customText_step. destruct (drawsText s) eqn:Htext.
      * simpl map at 1.
        destruct (widthOfTextAtSize H HelveticaBold (customText s) 12)
          as [textWidth|] eqn:Hw2; simpl bind; [|discriminate].
        intros E. injection E as <-. exists dateWidth, textWidth.
        split; [|now split].
        simpl map. rewrite map_map.
        f_equal; [|apply map_ext; intros p];
          unfold stamped, drawText, dateStamp, textStamp; simpl;
          rewrite Hdate, Htext, <- app_assoc; reflexivity.
      * intros E. injection E as <-. exists dateWidth, 0%Q.
        split; [|split; [easy|discriminate]].
        simpl map.
        f_equal; [|apply map_ext; intros p];
          unfold stamped, drawText; simpl;
          rewrite Hdate, Htext, app_nil_r; reflexivity.
    + simpl bind. rewrite customText_step. destruct (drawsText s) eqn:Htext.
      * destruct (widthOfTextAtSize H HelveticaBold (customText s) 12)
          as [textWidth|] eqn:Hw2; simpl bind; [|discriminate].
        intros E. injection E as <-. exists 0%Q, textWidth.
        split; [|split; [discriminate|easy]].
        simpl map.
        f_equal; [|apply map_ext; intros p];
          unfold stamped, drawText; simpl;
          rewrite Hdate, Htext; reflexivity.
      * intros E. injection E as <-. exists 0%Q, 0%Q.
        split; [|split; discriminate].
        symmetry. erewrite map_ext; [apply map_id|]. intros p.
        unfold stamped. rewrite Hdate, Htext. simpl. rewrite app_nil_r.
        now destruct p.
Qed.



Lemma stampStage_cropBox (H : Host) (pdfDoc stampedDoc : Document)
  (settings : Settings) :
  stampStage H pdfDoc settings = Ok stampedDoc ->
  map cropBox stampedDoc = map cropBox pdfDoc.
Proof.
  intros Hrun. destruct (stampStage_run _ _ _ _ Hrun) as [w1 [w2 [-> _]]].
  rewrite map_map. now apply map_ext.
Qed.

Lemma stampStage_pageBoxes (H : Host) (pdfDoc stampedDoc : Document)
  (settings : Settings) :
  stampStage H pdfDoc settings = Ok stampedDoc ->
  map pageBoxes stampedDoc = map pageBoxes pdfDoc.
Proof.
  intros Hrun. destruct (stampStage_run _ _ _ _ Hrun) as [w1 [w2 [-> _]]].
  rewrite map_map. now apply map_ext.
Qed.

Lemma stampStage_loadedPart (H : Host) (pdfDoc stampedDoc : Document)
  (settings : Settings) :
  stampStage H pdfDoc settings = Ok stampedDoc ->
  map loadedPart stampedDoc = map loadedPart pdfDoc.
Proof.
  intros Hrun. destruct (stampStage_run _ _ _ _ Hrun) as [w1 [w2 [-> _]]].
  rewrite map_map. now apply map_ext.
Qed.

Lemma cropStage_flipkart (pdfDoc : Document) (settings : Settings) :
  platform settings = "flipkart" ->
  cropStage pdfDoc settings = Ok (map (setCropBox 165 460 265 360) pdfDoc).
Proof.
  intros Hp. unfold cropStage. rewrite Hp. simpl.
  apply cropFlipkart_map.
Qed.

(* ================================================================= *)
(** ** Failures *)

Lemma processPDF_returns (H : Host) (filePaths : list string)
  (settings : Settings) (pdfBytes : Bytes) :
  processPDF H filePaths settings = Ok pdfBytes ->
  exists pdfDoc,
    processDocument H filePaths settings = Ok pdfDoc /\
    save H pdfDoc = Ok pdfBytes.
Proof.
  unfold processPDF.
  destruct (processDocument H filePaths settings) as [pdfDoc|]; simpl;
    [|discriminate].
  destruct (save H pdfDoc) as [bs|] eqn:Hsave; [|discriminate].
  intros E. injection E as <-. now exists pdfDoc.
Qed.

(** The crop step has nothing that throws. *)
Lemma cropStage_returns (pdfDoc : Document) (settings : Settings) :
  exists cropped, cropStage pdfDoc settings = Ok cropped.
Proof.
  unfold cropStage.
  destruct (String.eqb (platform settings) "flipkart").
  - destruct (cropBox_of (getPlatformPreset (platform settings))) as [box|].
    + eexists. apply cropFlipkart_map.
    + now exists pdfDoc.
  - destruct (nonEmpty (margin settings)
              && negb (String.eqb (margin settings) "0")).
    + destruct (parseInt (margin settings)); eexists; reflexivity.
    + now exists pdfDoc.
Qed.

Lemma processPDF_wraps
  (H : Host) (filePaths : list string) (settings : Settings)
  (message : string) :
  StageFails H filePaths settings message ->
  processPDF H filePaths settings = Err (failure_prefix ++ message)%string.
Proof.
  intros Hfail. unfold processPDF.
  destruct Hfail as [Hload|loaded cropped Hload Hcrop Hsort
                    |loaded cropped sorted Hload Hcrop Hsort Hstamp
                    |pdfDoc Hdoc Hsave].
  - unfold processDocument. rewrite Hload. reflexivity.
  - unfold processDocument. rewrite Hload. simpl. rewrite Hcrop. simpl.
    rewrite Hsort. reflexivity.
  - unfold processDocument. rewrite Hload. simpl. rewrite Hcrop. simpl.
    rewrite Hsort. simpl. rewrite Hstamp. reflexivity.
  - rewrite Hdoc. simpl. rewrite Hsave. reflexivity.
Qed.



(** Every run either returns the bytes of a fully processed document or
    fails in one of the stages. *)
Lemma processPDF_outcome (H : Host) (filePaths : list string)
  (settings : Settings) :
  (exists pdfDoc pdfBytes,
      processDocument H filePaths settings = Ok pdfDoc /\
      save H pdfDoc = Ok pdfBytes /\
      processPDF H filePaths settings = Ok pdfBytes) \/
  (exists message,
      StageFails H filePaths settings message /\
      processPDF H filePaths settings
      = Err ("PDF processing failed: " ++ message)%string).
Proof.
  destruct (processDocument H filePaths settings) as [pdfDoc|message] eqn:Hdoc.
  - destruct (save H pdfDoc) as [bs|message] eqn:Hsave.
    + left. exists pdfDoc, bs. repeat split; try assumption.
      unfold processPDF. rewrite Hdoc. simpl. now rewrite Hsave.
    + right. exists message.
      assert (Hf : StageFails H filePaths settings message)
        by (now apply (fails_save _ _ _ _ pdfDoc)).
      split; [exact Hf|]. now apply processPDF_wraps.
  - right. exists message.
    assert (Hf : StageFails H filePaths settings message).
    { unfold processDocument in Hdoc.
      destruct (loadStage H filePaths settings) as [loaded|] eqn:Hload;
        simpl in Hdoc.
      - destruct (cropStage_returns loaded settings) as [cropped Hcrop].
        rewrite Hcrop in Hdoc. simpl in Hdoc.
        destruct (sortStage H cropped settings) as [sorted|] eqn:Hsort;
          simpl in Hdoc.
        + now apply (fails_stamp _ _ _ _ loaded cropped sorted).
        + injection Hdoc as <-. now apply (fails_sort _ _ _ _ loaded cropped).
      - injection Hdoc as <-. now apply fails_load. }
    split; [exact Hf|]. now apply processPDF_wraps.
Qed.

(* ================================================================= *)
(** ** SKU extraction *)

Lemma matchItems_Star (greedy : bool) (c : ascii -> bool) (p : list Item)
  (s : string) (st : Captures) :
  matchItems (Star greedy c :: p) s st
  = if greedy then
      match
        match s with
        | String a s' =>
            if c a then matchItems (Star greedy c :: p) s' (consume a st)
            else None
        | EmptyString => None
        end
      with
      | Some r => Some r
      | None => matchItems p s st
      end
    else
      match matchItems p s st with
      | Some r => Some r
      | None =>
          match s with
          | String a s' =>
              if c a then matchItems (Star greedy c :: p) s' (consume a st)
              else None
          | EmptyString => None
          end
      end.
Proof. destruct s; reflexivity. Qed.

Section Lifting.

Variable I : Captures -> Prop.
Hypothesis I_consume : forall a st, I st -> I (consume a st).

Lemma lifts_One (c : ascii -> bool) (p : list Item) :
  Lifts I p -> Lifts I (One c :: p).
Proof.
  intros Hp s st st' HI. simpl. destruct s as [|a s]; [discriminate|].
  destruct (c a); [|discriminate]. apply Hp. now apply I_consume.
Qed.

Lemma lifts_Star (greedy : bool) (c : ascii -> bool) (p : list Item) :
  Lifts I p -> Lifts I (Star greedy c :: p).
Proof.
  intros Hp s. induction s as [|a s IH]; intros st st' HI;
    rewrite matchItems_Star.
  - destruct greedy.
    + now apply Hp.
    + destruct (matchItems p EmptyString st) as [r|] eqn:E; [|discriminate].
      intros Er. injection Er as <-. now apply (Hp EmptyString st).
  - destruct greedy.
    + destruct (c a).
      * destruct (matchItems (Star true c :: p) s (consume a st)) as [r|] eqn:E.
        -- intros Er. injection Er as <-.
           apply (IH (consume a st)); [now apply I_consume|exact E].
        -- now apply Hp.
      * now apply Hp.
    + destruct (matchItems p (String a s) st) as [r|] eqn:E.
      * intros Er. injection Er as <-. now apply (Hp (String a s) st).
      * destruct (c a); [|discriminate].
        apply IH. now apply I_consume.
Qed.

End Lifting.

Lemma HasCapture_consume (a : ascii) (st : Captures) :
  HasCapture st -> HasCapture (consume a st).
Proof. intros [g Hg]. now exists g. Qed.

Lemma Inside_consume (a : ascii) (st : Captures) :
  Inside st -> Inside (consume a st).
Proof.
  intros [l [Hl _]]. exists (a :: l). unfold consume. simpl. rewrite Hl.
  split; [reflexivity|discriminate].
Qed.

Lemma lifts_nil : Lifts HasCapture [].
Proof. intros s st st' Hst E. simpl in E. now injection E as <-. Qed.

Lemma lifts_Close (p : list Item) :
  Lifts HasCapture p -> Lifts Inside (Close :: p).
Proof.
  intros Hp s st st' [l [Hl Hne]]. simpl. apply Hp.
  exists (string_of_list_ascii (rev l)). unfold closeGroup. rewrite Hl. simpl.
  split; [reflexivity|]. intros Hempty.
  apply (f_equal list_ascii_of_string) in Hempty.
  rewrite list_ascii_of_string_of_list_ascii in Hempty. simpl in Hempty.
  apply (f_equal (@rev ascii)) in Hempty. rewrite rev_involutive in Hempty.
  now apply Hne.
Qed.

Lemma lifts_One_opened (c : ascii -> bool) (p : list Item) :
  Lifts Inside p -> Lifts Opened (One c :: p).
Proof.
  intros Hp s st st' [l Hl]. simpl. destruct s as [|a s]; [discriminate|].
  destruct (c a); [|discriminate]. apply Hp.
  exists (a :: l). unfold consume. rewrite Hl. split; [reflexivity|discriminate].
Qed.

Lemma lifts_Open (p : list Item) :
  Lifts Opened p -> Lifts (fun _ => True) (Open :: p).
Proof.
  intros Hp s st st' _. simpl. apply Hp. now exists [].
Qed.

Ltac lift_pattern :=
  repeat first
    [ apply lifts_nil
    | apply lifts_Open
    | apply lifts_One_opened
    | apply lifts_Close
    | apply lifts_One; [auto using HasCapture_consume, Inside_consume|]
    | apply lifts_Star; [auto using HasCapture_consume, Inside_consume|] ].

Lemma pattern1_captures : Lifts (fun _ => True) pattern1.
Proof.
  cbv [pattern1 plus skuGroup app]. lift_pattern.
Qed.

Lemma pattern2_captures : Lifts (fun _ => True) pattern2.
Proof.
  cbv [pattern2 literal plus skuGroup app map list_ascii_of_string].
  lift_pattern.
Qed.

Lemma pattern3_captures : Lifts (fun _ => True) pattern3.
Proof.
  cbv [pattern3 pattern2 literal plus skuGroup app map list_ascii_of_string].
  lift_pattern.
Qed.

Lemma regexMatch_captures (p : list Item) (text : string) :
  Lifts (fun _ => True) p ->
  regexMatch p text = None \/
  exists c, regexMatch p text = Some (Some c) /\ c <> EmptyString.
Proof.
  intros Hp. induction text as [|a text IH]; simpl.
  - destruct (matchItems p EmptyString (mkCaptures None None)) as [st|] eqn:E;
      [|now left].
    right. destruct (Hp _ _ _ Logic.I E) as [g [Hg Hne]].
    exists g. now rewrite Hg.
  - destruct (matchItems p (String a text) (mkCaptures None None))
      as [st|] eqn:E; [|exact IH].
    right. destruct (Hp _ _ _ Logic.I E) as [g [Hg Hne]].
    exists g. now rewrite Hg.
Qed.

Lemma captured_nonempty (c : string) :
  c <> EmptyString -> captured (Some (Some c)) = Some c.
Proof.
  intros Hne. unfold captured. destruct (String.eqb_spec c EmptyString).
  - contradiction.
  - reflexivity.
Qed.

(** The cases of [extractSKU], on the text handed to the patterns. *)
Lemma extractSKU_cases (text : string) :
  (forall p, In p [pattern1; pattern2; pattern3] ->
             regexMatch p text = None \/
             exists c, regexMatch p text = Some (Some c) /\ c <> EmptyString) /\
  (forall c, regexMatch pattern1 text = Some (Some c) ->
             extractSKU text = Some (trim c)) /\
  (regexMatch pattern1 text = None ->
   forall c, regexMatch pattern2 text = Some (Some c) ->
             extractSKU text = Some (trim c)) /\
  (regexMatch pattern1 text = None ->
   regexMatch pattern2 text = None ->
   forall c, regexMatch pattern3 text = Some (Some c) ->
             extractSKU text = Some (trim c)) /\
  (regexMatch pattern1 text = None ->
   regexMatch pattern2 text = None ->
   regexMatch pattern3 text = None ->
   extractSKU text = None).
Proof.
  assert (Hcap : forall p, In p [pattern1; pattern2; pattern3] ->
                 regexMatch p text = None \/
                 exists c, regexMatch p text = Some (Some c) /\
                           c <> EmptyString).
  { intros p [<-|[<-|[<-|[]]]]; apply regexMatch_captures.
    - apply pattern1_captures.
    - apply pattern2_captures.
    - apply pattern3_captures. }
  assert (Hne : forall p c, In p [pattern1; pattern2; pattern3] ->
                regexMatch p text = Some (Some c) -> c <> EmptyString).
  { intros p c Hin Hm. destruct (Hcap p Hin) as [Hn|[c' [Hc' Hne]]].
    - congruence.
    - rewrite Hm in Hc'. injection Hc' as ->. exact Hne. }
  split; [exact Hcap|].
  repeat match goal with |- _ /\ _ => split end.
  - intros c Hm. unfold extractSKU. rewrite Hm.
    rewrite captured_nonempty; [reflexivity|].
    apply (Hne pattern1); simpl; auto.
  - intros H1 c Hm. unfold extractSKU. rewrite H1, Hm.
    rewrite captured_nonempty; [reflexivity|].
    apply (Hne pattern2); simpl; auto.
  - intros H1 H2 c Hm. unfold extractSKU. rewrite H1, H2, Hm.
    rewrite captured_nonempty; [reflexivity|].
    apply (Hne pattern3); simpl; auto.
  - intros H1 H2 H3. unfold extractSKU. rewrite H1, H2, H3. reflexivity.
Qed.

(** A failure of the text extraction is absorbed: the page has no SKU. *)
Lemma extractSKUFromPage_error
  (H : Host) (pdfBytes : Bytes) (pageNumber : nat) (message : string) :
  pdfParse_text H pdfBytes pageNumber = Err message ->
  extractSKUFromPage H pdfBytes pageNumber = None.
Proof. intros E. unfold extractSKUFromPage. now rewrite E. Qed.

(** Runs of [extractSKU]: the second pattern, text that no pattern
    matches, a capture made of one space, and the scenario text as
    pdf-parse delivers it (after two line feeds, each item followed by a
    space). *)
Lemma extractSKU_runs :
  extractSKU "QTY 2 blue-owl-lamp | 123" = Some "blue-owl-lamp" /\
  regexMatch pattern1 "QTY 2 blue-owl-lamp | 123" = None /\
  extractSKU "Tax Invoice" = None /\
  extractSKU "1   | A" = Some EmptyString /\
  extractSKU (String (ascii_of_nat 10) (String (ascii_of_nat 10)
                "1 sp_megha red chiku | MFTEXO "))
  = Some "sp_megha red chiku".
Proof. repeat split; vm_compute; reflexivity. Qed.

(* ================================================================= *)
(** ** SKU sort *)

(** C4.  A two-page document: page 1 carries the SKU ["zzz_z"], page 2
    carries none and gets the key ["zzz_no_sku_0001"].  Whenever the
    collation orders ["ZZZ_NO_SKU_0001"] before ["ZZZ_Z"] (the keys first
    differ at N against Z), the sort stage puts the page without a SKU
    before the page with one. *)
Theorem sortStage_page_without_sku_first
  (H : Host) (settings : Settings) (pdfBytes : Bytes)
  (skuPage blankPage : Page) :
  sortSku settings = true ->
  save H [skuPage; blankPage] = Ok pdfBytes ->
  pdfParse_text H pdfBytes 1 = Ok "1 zzz_z | A" ->
  pdfParse_text H pdfBytes 2 = Ok EmptyString ->
  (localeCompare H "ZZZ_NO_SKU_0001" "ZZZ_Z" < 0)%Z ->
  extractSKUFromPage H pdfBytes 1 = Some "zzz_z" /\
  extractSKUFromPage H pdfBytes 2 = None /\
  collectPageData H pdfBytes 2
  = [mkPageData 0 "zzz_z"; mkPageData 1 "zzz_no_sku_0001"] /\
  sortStage H [skuPage; blankPage] settings = Ok [blankPage; skuPage].
Proof.
  intros Hsort Hsave Htext1 Htext2 Hcmp.
  assert (H1 : extractSKUFromPage H pdfBytes 1 = Some "zzz_z").
  { unfold extractSKUFromPage. rewrite Htext1. vm_compute. reflexivity. }
  assert (H2 : extractSKUFromPage H pdfBytes 2 = None).
  { unfold extractSKUFromPage. rewrite Htext2. vm_compute. reflexivity. }
  assert (Hdata : collectPageData H pdfBytes 2
                  = [mkPageData 0 "zzz_z"; mkPageData 1 "zzz_no_sku_0001"]).
  { unfold collectPageData. simpl. rewrite H1, H2. reflexivity. }
  repeat match goal with |- _ /\ _ => split end; try assumption.
  unfold sortStage. rewrite Hsort, Hsave. simpl bind.
  change (getPageCount [skuPage; blankPage]) with 2%nat. rewrite Hdata.
  unfold sortBy. simpl fold_left. unfold compareSku at 1.
  change (toUpperCase (sku (mkPageData 1 "zzz_no_sku_0001")))
    with "ZZZ_NO_SKU_0001".
  change (toUpperCase (sku (mkPageData 0 "zzz_z"))) with "ZZZ_Z".
  apply Z.ltb_lt in Hcmp. rewrite Hcmp. reflexivity.
Qed.

Lemma sortStage_page_without_sku_first_witness :
  extractSKUFromPage (MemoryHost.host MemoryHost.disk)
    (MemoryHost.encode MemoryHost.fileA) 1 = Some "zzz_z" /\
  extractSKUFromPage (MemoryHost.host MemoryHost.disk)
    (MemoryHost.encode MemoryHost.fileA) 2 = None /\
  collectPageData (MemoryHost.host MemoryHost.disk)
    (MemoryHost.encode MemoryHost.fileA) 2
  = [mkPageData 0 "zzz_z"; mkPageData 1 "zzz_no_sku_0001"] /\
  sortStage (MemoryHost.host MemoryHost.disk)
    [MemoryHost.textPage "1 zzz_z | A"; MemoryHost.textPage EmptyString]
    (MemoryHost.settings false "custom" "0" true)
  = Ok [MemoryHost.textPage EmptyString; MemoryHost.textPage "1 zzz_z | A"].
Proof.
  apply (sortStage_page_without_sku_first
           (MemoryHost.host MemoryHost.disk)
           (MemoryHost.settings false "custom" "0" true)
           (MemoryHost.encode MemoryHost.fileA)
           (MemoryHost.textPage "1 zzz_z | A")
           (MemoryHost.textPage EmptyString)).
  - reflexivity.
  - reflexivity.
  - reflexivity.
  - reflexivity.
  - vm_compute. reflexivity.
Defined.

(** The same run through the whole of [processDocument], on the
    in-memory host. *)
Lemma processDocument_page_without_sku_first :
  loadFile (MemoryHost.host MemoryHost.disk) "a.pdf"
  = Ok [MemoryHost.textPage "1 zzz_z | A"; MemoryHost.textPage EmptyString] /\
  processDocument (MemoryHost.host MemoryHost.disk) ["a.pdf"]
                  (MemoryHost.settings false "custom" "0" true)
  = Ok [MemoryHost.textPage EmptyString; MemoryHost.textPage "1 zzz_z | A"].
Proof. split; vm_compute; reflexivity. Qed.

(** The four-digit padding orders the fallback keys by page index only
    below 10000 pages: the key of page 10000 sorts before the key of
    page 2000. *)
Lemma fallbackKey_padding_overflow :
  fallbackKey (100 * 100) = "zzz_no_sku_10000" /\
  fallbackKey 2000 = "zzz_no_sku_2000" /\
  (MemoryHost.codeUnitCompare (toUpperCase (fallbackKey (100 * 100)))
                              (toUpperCase (fallbackKey 2000)) < 0)%Z.
Proof. repeat split. Qed.

(* ================================================================= *)
(** ** Further properties of the SKU patterns *)

(** Whether [p] matches at a position does not depend on the capture
    state it is started in. *)
Lemma matchItems_any_state (p : list Item) :
  forall s st r, matchItems p s st = Some r ->
  forall st', exists r', matchItems p s st' = Some r'.
Proof.
  induction p as [|it p IH]; intros s st r Hm st'.
  - now exists st'.
  - destruct it as [c|greedy c| |].
    + simpl in *. destruct s as [|a s]; [discriminate|].
      destruct (c a); [|discriminate]. eapply IH; eassumption.
    + revert st r Hm st'. induction s as [|a s IHs]; intros st r Hm st';
        rewrite matchItems_Star in Hm; rewrite matchItems_Star.
      * destruct greedy.
        -- eapply IH; eassumption.
        -- destruct (matchItems p EmptyString st) as [r0|] eqn:E;
             [|discriminate].
           destruct (IH _ _ _ E st') as [r' Hr']. rewrite Hr'. now exists r'.
      * destruct greedy.
        -- destruct (c a).
           ++ destruct (matchItems (Star true c :: p) s (consume a st))
                as [r0|] eqn:E.
              ** destruct (IHs _ _ E (consume a st')) as [r' Hr'].
                 rewrite Hr'. now exists r'.
              ** destruct (matchItems (Star true c :: p) s (consume a st'))
                   as [r1|]; [now exists r1|].
                 eapply IH; eassumption.
           ++ eapply IH; eassumption.
        -- destruct (matchItems p (String a s) st) as [r0|] eqn:E.
           ++ destruct (IH _ _ _ E st') as [r' Hr']. rewrite Hr'.
              now exists r'.
           ++ destruct (c a); [|discriminate].
              destruct (matchItems p (String a s) st') as [r1|];
                [now exists r1|].
              eapply IHs; eassumption.
    + simpl in *. eapply IH; eassumption.
    + simpl in *. eapply IH; eassumption.
Qed.

Lemma matchItems_One_rest (c : ascii -> bool) (p : list Item)
  (s : string) (st r : Captures) :
  matchItems (One c :: p) s st = Some r ->
  exists s' st', Suffix s' s /\ matchItems p s' st' = Some r.
Proof.
  simpl. destruct s as [|a s]; [discriminate|].
  destruct (c a); [|discriminate]. intros Hm.
  exists s, (consume a st). split; [|exact Hm].
  apply suffix_later, suffix_here.
Qed.

Lemma matchItems_Star_rest (greedy : bool) (c : ascii -> bool)
  (p : list Item) (s : string) :
  forall st r,
    matchItems (Star greedy c :: p) s st = Some r ->
    exists s' st', Suffix s' s /\ matchItems p s' st' = Some r.
Proof.
  induction s as [|a s IHs]; intros st r; rewrite matchItems_Star.
  - destruct greedy.
    + intros Hm. exists EmptyString, st. split; [constructor|exact Hm].
    + destruct (matchItems p EmptyString st) as [r0|] eqn:E; [|discriminate].
      intros Er. injection Er as <-.
      exists EmptyString, st. split; [constructor|exact E].
  - assert (Hmore : forall r,
               matchItems (Star greedy c :: p) s (consume a st) = Some r ->
               exists s' st',
                 Suffix s' (String a s) /\ matchItems p s' st' = Some r).
    { intros r0 Hm. destruct (IHs _ _ Hm) as [s' [st' [Hs Hr]]].
      exists s', st'. split; [now apply suffix_later|exact Hr]. }
    assert (Hstop : forall r,
               matchItems p (String a s) st = Some r ->
               exists s' st',
                 Suffix s' (String a s) /\ matchItems p s' st' = Some r).
    { intros r0 Hm. exists (String a s), st. split; [constructor|exact Hm]. }
    destruct greedy.
    + destruct (c a); [|apply Hstop].
      destruct (matchItems (Star true c :: p) s (consume a st)) as [r0|] eqn:E.
      * intros Er. injection Er as <-. now apply Hmore.
      * apply Hstop.
    + destruct (matchItems p (String a s) st) as [r0|] eqn:E.
      * intros Er. injection Er as <-. now apply Hstop.
      * destruct (c a); [|discriminate]. apply Hmore.
Qed.

Lemma Suffix_trans (a b c : string) : Suffix a b -> Suffix b c -> Suffix a c.
Proof.
  intros Hab Hbc. induction Hbc as [|x s' s Hbc IH].
  - exact Hab.
  - apply suffix_later. now apply IH.
Qed.

(** A match of [p] at some position of [text] makes [text.match] succeed. *)
Lemma regexMatch_of_suffix (p : list Item) (s' text : string)
  (st r : Captures) :
  Suffix s' text -> matchItems p s' st = Some r ->
  regexMatch p text <> None.
Proof.
  intros Hs Hm. induction Hs as [s|a s' s Hs IH].
  - destruct (matchItems_any_state p _ _ _ Hm (mkCaptures None None))
      as [r' Hr'].
    destruct s; simpl; rewrite Hr'; discriminate.
  - simpl. destruct (matchItems p (String a s) (mkCaptures None None));
      [discriminate|]. now apply IH.
Qed.

Lemma regexMatch_position (p : list Item) (text : string) (g : option string) :
  regexMatch p text = Some g ->
  exists s' r, Suffix s' text /\
               matchItems p s' (mkCaptures None None) = Some r /\
               group1 r = g.
Proof.
  induction text as [|a text IH]; simpl.
  - destruct (matchItems p EmptyString (mkCaptures None None)) as [r|] eqn:E;
      [|discriminate].
    intros Eg. injection Eg as <-. exists EmptyString, r.
    repeat split; [constructor|exact E].
  - destruct (matchItems p (String a text) (mkCaptures None None))
      as [r|] eqn:E.
    + intros Eg. injection Eg as <-. exists (String a text), r.
      repeat split; [constructor|exact E].
    + intros Hm. destruct (IH Hm) as [s' [r [Hs [Hr Hg]]]].
      exists s', r. repeat split; try assumption. now apply suffix_later.
Qed.

Lemma pattern3_needs_pattern2 (text : string) :
  regexMatch pattern3 text <> None -> regexMatch pattern2 text <> None.
Proof.
  intros Hm. destruct (regexMatch pattern3 text) as [g|] eqn:E;
    [|contradiction].
  destruct (regexMatch_position _ _ _ E) as [s0 [r [Hs0 [Hr _]]]].
  change pattern3 with
    (One (ci "S") :: One (ci "K") :: One (ci "U") :: One (ci " ")
     :: One (ci "I") :: One (ci "D") :: Star false anyChar :: pattern2) in Hr.
  repeat match type of Hr with
         | matchItems (One _ :: _) _ _ = Some _ =>
             apply matchItems_One_rest in Hr;
             let s' := fresh "s" in
             let st' := fresh "st" in
             let Hs' := fresh "Hs" in
             destruct Hr as [s' [st' [Hs' Hr]]];
             pose proof (Suffix_trans _ _ _ Hs' Hs0) as Hs1;
             clear Hs0 Hs'; rename Hs1 into Hs0
         end.
  apply matchItems_Star_rest in Hr. destruct Hr as [s' [st' [Hs' Hr]]].
  apply (regexMatch_of_suffix pattern2 s' text st' r);
    [|exact Hr].
  eapply Suffix_trans; eassumption.
Qed.

(** X1.  The third pattern never decides: whenever it matches, the second
    one matches too, so a text on which the first two patterns fail has no
    SKU. *)
Theorem extractSKU_third_pattern_unused (text : string) :
  regexMatch pattern1 text = None ->
  regexMatch pattern2 text = None ->
  regexMatch pattern3 text = None /\ extractSKU text = None.
Proof.
  intros H1 H2.
  assert (H3 : regexMatch pattern3 text = None).
  { destruct (regexMatch pattern3 text) eqn:E; [|reflexivity].
    exfalso. apply (pattern3_needs_pattern2 text); [|exact H2].
    rewrite E. discriminate. }
  split; [exact H3|]. unfold extractSKU. now rewrite H1, H2, H3.
Qed.

Lemma extractSKU_third_pattern_unused_witness :
  regexMatch pattern3 "SKU ID 77 Tax Invoice" = None /\
  extractSKU "SKU ID 77 Tax Invoice" = None.
Proof.
  apply (extractSKU_third_pattern_unused "SKU ID 77 Tax Invoice");
    vm_compute; reflexivity.
Defined.

Section Keeping.

Variable I J : Captures -> Prop.
Variable c : ascii -> bool.
Hypothesis I_consume : forall a st, c a = true -> I st -> I (consume a st).

Lemma keeps_One (p : list Item) : Keeps I J p -> Keeps I J (One c :: p).
Proof.
  intros Hp s st st' HI. simpl. destruct s as [|a s]; [discriminate|].
  destruct (c a) eqn:Ec; [|discriminate]. apply Hp. now apply I_consume.
Qed.

Lemma keeps_Star (greedy : bool) (p : list Item) :
  Keeps I J p -> Keeps I J (Star greedy c :: p).
Proof.
  intros Hp s. induction s as [|a s IH]; intros st st' HI;
    rewrite matchItems_Star.
  - destruct greedy.
    + now apply Hp.
    + destruct (matchItems p EmptyString st) as [r|] eqn:E; [|discriminate].
      intros Er. injection Er as <-. now apply (Hp EmptyString st).
  - destruct greedy.
    + destruct (c a) eqn:Ec.
      * destruct (matchItems (Star true c :: p) s (consume a st)) as [r|] eqn:E.
        -- intros Er. injection Er as <-.
           apply (IH (consume a st)); [now apply I_consume|exact E].
        -- now apply Hp.
      * now apply Hp.
    + destruct (matchItems p (String a s) st) as [r|] eqn:E.
      * intros Er. injection Er as <-. now apply (Hp (String a s) st).
      * destruct (c a) eqn:Ec; [|discriminate].
        apply IH. now apply I_consume.
Qed.

End Keeping.

Section Alphabet.

Variable P : ascii -> bool.

Lemma Outside_consume (c : ascii -> bool) (a : ascii) (st : Captures) :
  c a = true -> OutsideGroup P st -> OutsideGroup P (consume a st).
Proof.
  intros _ [Hcur Hcap]. split.
  - unfold consume. simpl. now rewrite Hcur.
  - exact Hcap.
Qed.

Lemma Inside_consume_P (a : ascii) (st : Captures) :
  P a = true -> InsideGroup P st -> InsideGroup P (consume a st).
Proof.
  intros Ha [[l [Hl Hall]] Hcap]. split; [|exact Hcap].
  exists (a :: l). unfold consume. simpl. rewrite Hl, Ha, Hall. now split.
Qed.

Lemma keeps_end : Keeps (OutsideGroup P) (CaptureIn P) [].
Proof. intros s st st' [_ Hcap] E. simpl in E. now injection E as <-. Qed.

Lemma keeps_Open (p : list Item) :
  Keeps (InsideGroup P) (CaptureIn P) p ->
  Keeps (OutsideGroup P) (CaptureIn P) (Open :: p).
Proof.
  intros Hp s st st' [_ Hcap]. simpl. apply Hp. split; [|exact Hcap].
  now exists [].
Qed.

Lemma keeps_Close (p : list Item) :
  Keeps (OutsideGroup P) (CaptureIn P) p ->
  Keeps (InsideGroup P) (CaptureIn P) (Close :: p).
Proof.
  intros Hp s st st' [[l [Hl Hall]] _]. simpl. apply Hp. split.
  - reflexivity.
  - intros g. unfold closeGroup. rewrite Hl. simpl. intros E.
    injection E as <-. unfold allChars.
    rewrite list_ascii_of_string_of_list_ascii.
    apply forallb_forall. intros x Hx. apply in_rev in Hx.
    rewrite forallb_forall in Hall. now apply Hall.
Qed.

End Alphabet.

Ltac keep_pattern :=
  repeat first
    [ apply keeps_end
    | apply keeps_Open
    | apply keeps_Close
    | apply keeps_One; [now apply Inside_consume_P|]
    | apply keeps_Star; [now apply Inside_consume_P|]
    | apply keeps_One; [now apply Outside_consume|]
    | apply keeps_Star; [now apply Outside_consume|] ].

Lemma pattern1_alphabet :
  Keeps (OutsideGroup skuChar) (CaptureIn skuChar) pattern1.
Proof. cbv [pattern1 plus skuGroup app]. keep_pattern. Qed.

Lemma pattern2_alphabet :
  Keeps (OutsideGroup skuChar) (CaptureIn skuChar) pattern2.
Proof.
  cbv [pattern2 literal plus skuGroup app map list_ascii_of_string].
  keep_pattern.
Qed.

Lemma pattern3_alphabet :
  Keeps (OutsideGroup skuChar) (CaptureIn skuChar) pattern3.
Proof.
  cbv [pattern3 pattern2 literal plus skuGroup app map list_ascii_of_string].
  keep_pattern.
Qed.

Lemma regexMatch_alphabet (p : list Item) (text c : string) :
  Keeps (OutsideGroup skuChar) (CaptureIn skuChar) p ->
  regexMatch p text = Some (Some c) -> allChars skuChar c = true.
Proof.
  intros Hp Hm.
  destruct (regexMatch_position _ _ _ Hm) as [s' [r [_ [Hr Hg]]]].
  apply (Hp s' (mkCaptures None None) r); [|exact Hr|exact Hg].
  split; [reflexivity|]. intros g. discriminate.
Qed.

(** *** [trim] *)

Lemma trimStart_Suffix (s : string) : Suffix (trimStart s) s.
Proof.
  induction s as [|a s IH]; simpl.
  - constructor.
  - destruct (isSpace a); [now apply suffix_later|constructor].
Qed.

Lemma allChars_Suffix (P : ascii -> bool) (s' s : string) :
  Suffix s' s -> allChars P s = true -> allChars P s' = true.
Proof.
  induction 1 as [|a s' s _ IH]; [easy|].
  unfold allChars in *. simpl. intros Hall.
  apply andb_true_iff in Hall. now apply IH.
Qed.

Lemma allChars_reverse (P : ascii -> bool) (s : string) :
  allChars P (reverse s) = allChars P s.
Proof.
  unfold allChars, reverse. rewrite list_ascii_of_string_of_list_ascii.
  apply eq_true_iff_eq. rewrite !forallb_forall.
  split; intros Hall x Hx; apply Hall; [now apply -> in_rev|now apply in_rev].
Qed.

Lemma allChars_trim (P : ascii -> bool) (s : string) :
  allChars P s = true -> allChars P (trim s) = true.
Proof.
  intros Hall. unfold trim, trimEnd. rewrite allChars_reverse.
  apply (allChars_Suffix P _ _ (trimStart_Suffix _)).
  rewrite allChars_reverse.
  now apply (allChars_Suffix P _ _ (trimStart_Suffix _)).
Qed.

Lemma trimStart_startsClean (s : string) : startsClean (trimStart s).
Proof.
  induction s as [|a s IH]; simpl; [exact Logic.I|].
  destruct (isSpace a) eqn:E; [exact IH|exact E].
Qed.

Lemma trimStart_clean (s : string) : startsClean s -> trimStart s = s.
Proof.
  destruct s as [|a s]; simpl; [reflexivity|]. now intros ->.
Qed.

Lemma reverse_involutive (s : string) : reverse (reverse s) = s.
Proof.
  unfold reverse. rewrite list_ascii_of_string_of_list_ascii, rev_involutive.
  apply string_of_list_ascii_of_string.
Qed.

Lemma Suffix_app (s' s : string) :
  Suffix s' s ->
  exists pre, list_ascii_of_string s = pre ++ list_ascii_of_string s'.
Proof.
  induction 1 as [s|a s' s _ [pre IH]].
  - now exists [].
  - exists (a :: pre). simpl. now rewrite IH.
Qed.

Lemma trimEnd_startsClean (s : string) :
  startsClean s -> startsClean (trimEnd s).
Proof.
  intros Hclean. unfold trimEnd.
  destruct (Suffix_app _ _ (trimStart_Suffix (reverse s))) as [pre Hpre].
  assert (Hrev : list_ascii_of_string (reverse s)
                 = rev (list_ascii_of_string s)).
  { unfold reverse. apply list_ascii_of_string_of_list_ascii. }
  rewrite Hrev in Hpre.
  apply (f_equal (@rev ascii)) in Hpre.
  rewrite rev_involutive, rev_app_distr in Hpre.
  unfold reverse at 1.
  destruct (rev (list_ascii_of_string (trimStart (reverse s))))
    as [|a k] eqn:Ek; simpl; [exact Logic.I|].
  destruct s as [|b s]; simpl in Hpre; [discriminate|].
  injection Hpre as Hb _. subst b. exact Hclean.
Qed.

Lemma trim_clean (s : string) : trim (trim s) = trim s.
Proof.
  unfold trim at 1.
  rewrite (trimStart_clean (trim s)).
  - unfold trim, trimEnd. rewrite reverse_involutive.
    rewrite (trimStart_clean (trimStart _)); [reflexivity|].
    apply trimStart_startsClean.
  - unfold trim. apply trimEnd_startsClean, trimStart_startsClean.
Qed.

Lemma list_ascii_of_string_app (a b : string) :
  list_ascii_of_string (a ++ b)
  = list_ascii_of_string a ++ list_ascii_of_string b.
Proof.
  induction a as [|x a IH]; simpl; [reflexivity|]. now rewrite IH.
Qed.

Lemma reverse_app (a b : string) :
  reverse (a ++ b) = (reverse b ++ reverse a)%string.
Proof.
  unfold reverse. rewrite list_ascii_of_string_app, rev_app_distr.
  rewrite <- (string_of_list_ascii_of_string
                (string_of_list_ascii (rev (list_ascii_of_string b))
                 ++ string_of_list_ascii (rev (list_ascii_of_string a)))).
  now rewrite list_ascii_of_string_app, !list_ascii_of_string_of_list_ascii.
Qed.

Lemma trimStart_split (s : string) :
  exists before,
    s = (before ++ trimStart s)%string /\ allChars isSpace before = true.
Proof.
  induction s as [|a s [before [Hs Hall]]]; simpl.
  - now exists EmptyString.
  - destruct (isSpace a) eqn:Ea.
    + exists (String a before). simpl. rewrite <- Hs. split; [reflexivity|].
      unfold allChars in *. simpl. now rewrite Ea.
    + now exists EmptyString.
Qed.

Lemma trimEnd_split (s : string) :
  exists after,
    s = (trimEnd s ++ after)%string /\ allChars isSpace after = true.
Proof.
  destruct (trimStart_split (reverse s)) as [before [Hs Hall]].
  exists (reverse before). split.
  - unfold trimEnd. rewrite <- reverse_app, <- Hs.
    symmetry. apply reverse_involutive.
  - now rewrite allChars_reverse.
Qed.

(** What [trim] leaves: the string between the white space at its two
    ends. *)
Lemma trim_Trimmed (c : string) : Trimmed c (trim c).
Proof.
  destruct (trimStart_split c) as [before [Hc Hbefore]].
  destruct (trimEnd_split (trimStart c)) as [after [Ht Hafter]].
  exists before, after. repeat split; try assumption.
  - rewrite Hc at 1. now rewrite Ht at 1.
  - unfold trim. apply trimEnd_startsClean, trimStart_startsClean.
  - unfold trim, trimEnd. rewrite reverse_involutive.
    apply trimStart_startsClean.
Qed.

(** C5.  On a page whose extracted text is [text], [extractSKUFromPage]
    tries the three patterns in order and returns the capture of the
    first one that matches without the white space at its two ends,
    [null] when none matches: a pattern either does not match or captures
    a non-empty string, so the four cases below are all the cases.  On the
    text ["1 sp_megha red chiku | MFTEXO"] the result is
    ["sp_megha red chiku"]; a capture of white space only gives the empty
    string; a text that only the second pattern matches gives its
    capture; a text that no pattern matches gives [null]. *)
Theorem extractSKUFromPage_priority
  (H : Host) (pdfBytes : Bytes) (pageNumber : nat) (text : string) :
  pdfParse_text H pdfBytes pageNumber = Ok text ->
  (forall p, In p [pattern1; pattern2; pattern3] ->
             regexMatch p text = None \/
             exists c, regexMatch p text = Some (Some c) /\ c <> EmptyString) /\
  (forall c, regexMatch pattern1 text = Some (Some c) ->
             exists sku,
               extractSKUFromPage H pdfBytes pageNumber = Some sku /\
               sku = trim c /\ Trimmed c sku) /\
  (regexMatch pattern1 text = None ->
   forall c, regexMatch pattern2 text = Some (Some c) ->
             exists sku,
               extractSKUFromPage H pdfBytes pageNumber = Some sku /\
               sku = trim c /\ Trimmed c sku) /\
  (regexMatch pattern1 text = None ->
   regexMatch pattern2 text = None ->
   forall c, regexMatch pattern3 text = Some (Some c) ->
             exists sku,
               extractSKUFromPage H pdfBytes pageNumber = Some sku /\
               sku = trim c /\ Trimmed c sku) /\
  (regexMatch pattern1 text = None ->
   regexMatch pattern2 text = None ->
   regexMatch pattern3 text = None ->
   extractSKUFromPage H pdfBytes pageNumber = None) /\
  (text = "1 sp_megha red chiku | MFTEXO" ->
   extractSKUFromPage H pdfBytes pageNumber = Some "sp_megha red chiku") /\
  (text = "1   | A" ->
   regexMatch pattern1 text = Some (Some " ") /\
   extractSKUFromPage H pdfBytes pageNumber = Some EmptyString) /\
  (text = String "1" (String " " (String (ascii_of_nat 9) "| A")) ->
   regexMatch pattern1 text
   = Some (Some (String (ascii_of_nat 9) EmptyString)) /\
   extractSKUFromPage H pdfBytes pageNumber = Some EmptyString) /\
  (text = "Order QTY 2  blue-owl-lamp  | 123" ->
   regexMatch pattern1 text = None /\
   extractSKUFromPage H pdfBytes pageNumber = Some "blue-owl-lamp") /\
  (text = "Tax Invoice" ->
   extractSKUFromPage H pdfBytes pageNumber = None).
Proof.
  intros Htext. unfold extractSKUFromPage. rewrite Htext.
  destruct (extractSKU_cases text) as [Hcap [H1 [H2 [H3 H4]]]].
  repeat match goal with |- _ /\ _ => split end; try assumption.
  - intros c Hc. exists (trim c).
    split; [now apply H1|]. split; [reflexivity|apply trim_Trimmed].
  - intros Hn c Hc. exists (trim c).
    split; [now apply H2|]. split; [reflexivity|apply trim_Trimmed].
  - intros Hn1 Hn2 c Hc. exists (trim c).
    split; [now apply H3|]. split; [reflexivity|apply trim_Trimmed].
  - intros ->. vm_compute. reflexivity.
  - intros ->. vm_compute. now split.
  - intros ->. vm_compute. now split.
  - intros ->. vm_compute. now split.
  - intros ->. vm_compute. reflexivity.
Qed.

Lemma extractSKUFromPage_priority_witness :
  extractSKUFromPage (MemoryHost.host MemoryHost.disk)
                     (MemoryHost.encode MemoryHost.fileB) 1
  = Some "sp_megha red chiku" /\
  (regexMatch pattern1 "1   | A" = Some (Some " ") /\
   extractSKUFromPage (MemoryHost.host MemoryHost.disk)
                      (MemoryHost.encode [MemoryHost.textPage "1   | A"]) 1
   = Some EmptyString) /\
  (regexMatch pattern1 "Order QTY 2  blue-owl-lamp  | 123" = None /\
   extractSKUFromPage (MemoryHost.host MemoryHost.disk)
     (MemoryHost.encode
        [MemoryHost.textPage "Order QTY 2  blue-owl-lamp  | 123"]) 1
   = Some "blue-owl-lamp").
Proof.
  split; [|split].
  - apply (extractSKUFromPage_priority
             (MemoryHost.host MemoryHost.disk)
             (MemoryHost.encode MemoryHost.fileB) 1
             "1 sp_megha red chiku | MFTEXO").
    + reflexivity.
    + reflexivity.
  - apply (extractSKUFromPage_priority
             (MemoryHost.host MemoryHost.disk)
             (MemoryHost.encode [MemoryHost.textPage "1   | A"]) 1
             "1   | A").
    + reflexivity.
    + reflexivity.
  - apply (extractSKUFromPage_priority
             (MemoryHost.host MemoryHost.disk)
             (MemoryHost.encode
                [MemoryHost.textPage "Order QTY 2  blue-owl-lamp  | 123"]) 1
             "Order QTY 2  blue-owl-lamp  | 123").
    + reflexivity.
    + reflexivity.
Defined.

(** X2.  An extracted SKU is made of letters, digits, underscores,
    hyphens and white space only (so it holds no pipe), and it has no
    white space at either end. *)
Theorem extractSKU_alphabet (text sku : string) :
  extractSKU text = Some sku ->
  allChars skuChar sku = true /\
  trim sku = sku /\
  allChars (fun a => negb (Ascii.eqb a "|")) sku = true.
Proof.
  intros Hsku.
  assert (Hc : exists c, sku = trim c /\ allChars skuChar c = true).
  { unfold extractSKU in Hsku.
    destruct (regexMatch pattern1 text) as [[c|]|] eqn:E1.
    - exists c. unfold captured in Hsku.
      destruct (String.eqb c EmptyString); [discriminate|].
      injection Hsku as <-. split; [reflexivity|].
      apply (regexMatch_alphabet pattern1 text c pattern1_alphabet E1).
    - discriminate.
    - destruct (regexMatch pattern2 text) as [[c|]|] eqn:E2.
      + exists c. unfold captured in Hsku.
        destruct (String.eqb c EmptyString); [discriminate|].
        injection Hsku as <-. split; [reflexivity|].
        apply (regexMatch_alphabet pattern2 text c pattern2_alphabet E2).
      + discriminate.
      + destruct (regexMatch pattern3 text) as [[c|]|] eqn:E3;
          try discriminate.
        exists c. unfold captured in Hsku.
        destruct (String.eqb c EmptyString); [discriminate|].
        injection Hsku as <-. split; [reflexivity|].
        apply (regexMatch_alphabet pattern3 text c pattern3_alphabet E3). }
  destruct Hc as [c [-> Hall]].
  assert (Htrim : allChars skuChar (trim c) = true)
    by now apply allChars_trim.
  split; [exact Htrim|]. split; [apply trim_clean|].
  unfold allChars in *. rewrite forallb_forall in *. intros x Hx.
  specialize (Htrim x Hx). destruct (Ascii.eqb_spec x "|"); [|reflexivity].
  subst x. vm_compute in Htrim. discriminate.
Qed.

Lemma extractSKU_alphabet_witness :
  allChars skuChar "blue-owl-lamp" = true /\
  trim "blue-owl-lamp" = "blue-owl-lamp" /\
  allChars (fun a => negb (Ascii.eqb a "|")) "blue-owl-lamp" = true.
Proof.
  apply (extractSKU_alphabet "QTY 2  blue-owl-lamp  | 123" "blue-owl-lamp").
  vm_compute. reflexivity.
Defined.

(* ================================================================= *)
(** ** Further properties of the SKU sort *)

Lemma insertSorted_Permutation {A : Type} (cmp : A -> A -> Z) (pivot : A)
  (sorted : list A) :
  Permutation (pivot :: sorted) (insertSorted cmp pivot sorted).
Proof.
  induction sorted as [|e rest IH]; simpl.
  - apply Permutation_refl.
  - destruct (cmp pivot e <? 0)%Z.
    + apply Permutation_refl.
    + eapply perm_trans; [apply perm_swap|]. now apply perm_skip.
Qed.

Lemma sortBy_loop_Permutation {A : Type} (cmp : A -> A -> Z) (l : list A) :
  forall acc,
    Permutation (acc ++ l)
      (fold_left (fun sorted pivot => insertSorted cmp pivot sorted) l acc).
Proof.
  induction l as [|x l IH]; intros acc; simpl.
  - rewrite app_nil_r. apply Permutation_refl.
  - eapply perm_trans; [|apply IH].
    eapply perm_trans; [apply Permutation_sym, Permutation_middle|].
    change (x :: acc ++ l) with ((x :: acc) ++ l).
    apply Permutation_app_tail. apply insertSorted_Permutation.
Qed.

Lemma sortBy_Permutation {A : Type} (cmp : A -> A -> Z) (l : list A) :
  Permutation l (sortBy cmp l).
Proof. exact (sortBy_loop_Permutation cmp l []). Qed.

Lemma collectPageData_index (H : Host) (bs : Bytes) (n : nat) :
  map index (collectPageData H bs n) = seq 0 n.
Proof.
  unfold collectPageData. rewrite map_map. simpl. apply map_id.
Qed.

Lemma nth_error_seq_all (pre d : Document) :
  map (nth_error (pre ++ d)) (seq (List.length pre) (List.length d))
  = map Some d.
Proof.
  revert pre. induction d as [|p d IH]; intros pre; simpl; [reflexivity|].
  rewrite nth_error_app2 by lia. rewrite Nat.sub_diag. simpl. f_equal.
  replace (pre ++ p :: d) with ((pre ++ [p]) ++ d)
    by (rewrite <- app_assoc; reflexivity).
  replace (Datatypes.S (List.length pre)) with (List.length (pre ++ [p]))
    by (rewrite length_app; simpl; lia).
  apply IH.
Qed.

(** The loop that rebuilds the document copies the pages named by the
    sorted array, in its order. *)
Lemma sort_loop_pages (pdfDoc : Document) (pageData : list PageData) :
  Forall (fun data => (index data < List.length pdfDoc)%nat) pageData ->
  forall sortedPdf,
  exists pages,
    foldM (sort_step pdfDoc) pageData sortedPdf = Ok (sortedPdf ++ pages) /\
    map Some pages = map (fun data => nth_error pdfDoc (index data)) pageData.
Proof.
  induction 1 as [|data pageData Hlt _ IH]; intros sortedPdf; simpl.
  - exists []. now rewrite app_nil_r.
  - destruct (nth_error pdfDoc (index data)) as [page|] eqn:Hnth.
    + unfold sort_step at 1. rewrite (copyOnePage_nth _ _ _ Hnth). simpl.
      destruct (IH (addPage sortedPdf page)) as [pages [Hrun Hpages]].
      exists (page :: pages). rewrite Hrun. unfold addPage.
      rewrite <- app_assoc. simpl. now rewrite Hpages.
    + apply nth_error_None in Hnth. lia.
Qed.

Lemma map_Some_inj {A : Type} (l l' : list A) :
  map Some l = map Some l' -> l = l'.
Proof.
  revert l'. induction l as [|x l IH]; intros [|y l'] E; simpl in E;
    try discriminate; [reflexivity|].
  injection E as -> E. f_equal. now apply IH.
Qed.

(** The sort stage, from the bytes of the saved document on. *)
Lemma sortStage_run (H : Host) (pdfDoc : Document) (settings : Settings)
  (bs : Bytes) :
  sortSku settings = true ->
  save H pdfDoc = Ok bs ->
  exists sorted,
    sortStage H pdfDoc settings = Ok sorted /\
    map Some sorted
    = map (fun data => nth_error pdfDoc (index data))
          (sortBy (compareSku H)
                  (collectPageData H bs (getPageCount pdfDoc))).
Proof.
  intros Hsort Hsave. unfold sortStage. rewrite Hsort, Hsave. simpl bind.
  set (order := sortBy (compareSku H)
                       (collectPageData H bs (getPageCount pdfDoc))).
  assert (Hrange : Forall (fun data => (index data < List.length pdfDoc)%nat)
                          order).
  { apply Forall_forall. intros data Hin.
    apply (Permutation_in _ (Permutation_sym (sortBy_Permutation _ _))) in Hin.
    apply (in_map index) in Hin. rewrite collectPageData_index in Hin.
    apply in_seq in Hin. unfold getPageCount in Hin. lia. }
  destruct (sort_loop_pages pdfDoc order Hrange PDFDocument_create)
    as [pages [Hrun Hpages]].
  exists pages. split; [exact Hrun|exact Hpages].
Qed.

Lemma sortStage_Permutation (H : Host) (pdfDoc sorted : Document)
  (settings : Settings) :
  sortStage H pdfDoc settings = Ok sorted -> Permutation pdfDoc sorted.
Proof.
  intros Hrun. destruct (sortSku settings) eqn:Hsort.
  - destruct (save H pdfDoc) as [bs|message] eqn:Hsave.
    + destruct (sortStage_run H pdfDoc settings bs Hsort Hsave)
        as [sorted' [Hrun' Hpages]].
      rewrite Hrun in Hrun'. injection Hrun' as <-.
      assert (Hperm : Permutation (map Some pdfDoc) (map Some sorted)).
      { rewrite Hpages. rewrite <- (nth_error_seq_all [] pdfDoc). simpl.
        rewrite <- (map_map index (nth_error pdfDoc)).
        apply Permutation_map.
        rewrite <- (collectPageData_index H bs (List.length pdfDoc)).
        apply Permutation_map. apply sortBy_Permutation. }
      apply Permutation_map_inv in Hperm.
      destruct Hperm as [l [Hl Hperm]].
      apply map_Some_inj in Hl. now subst l.
    + unfold sortStage in Hrun. rewrite Hsort, Hsave in Hrun. discriminate.
  - unfold sortStage in Hrun. rewrite Hsort in Hrun. injection Hrun as <-.
    apply Permutation_refl.
Qed.

(** X3.  The sort stage loses no page and duplicates none, whatever the
    collation and whatever the text extraction returns: when it is off,
    or when the document can be saved, it returns a rearrangement of the
    pages it was given; when the save fails it fails with that message. *)
Theorem sortStage_rearranges
  (H : Host) (pdfDoc : Document) (settings : Settings) :
  sortSku settings = false \/ (exists bs, save H pdfDoc = Ok bs) ->
  exists sorted,
    sortStage H pdfDoc settings = Ok sorted /\
    Permutation pdfDoc sorted /\
    getPageCount sorted = getPageCount pdfDoc.
Proof.
  intros Hcase.
  assert (Hrun : exists sorted, sortStage H pdfDoc settings = Ok sorted).
  { destruct (sortSku settings) eqn:Hsort.
    - destruct Hcase as [Hoff|[bs Hsave]]; [discriminate|].
      destruct (sortStage_run H pdfDoc settings bs Hsort Hsave)
        as [sorted [Hrun _]].
      now exists sorted.
    - exists pdfDoc. unfold sortStage. now rewrite Hsort. }
  destruct Hrun as [sorted Hrun]. exists sorted.
  pose proof (sortStage_Permutation H _ _ _ Hrun) as Hperm.
  repeat split; try assumption.
  unfold getPageCount. symmetry. now apply Permutation_length.
Qed.

Lemma sortStage_rearranges_witness :
  exists sorted,
    sortStage (MemoryHost.host MemoryHost.disk) MemoryHost.fileA
              (MemoryHost.settings false "custom" "0" true)
    = Ok sorted /\
    Permutation MemoryHost.fileA sorted /\
    getPageCount sorted = getPageCount MemoryHost.fileA.
Proof.
  apply (sortStage_rearranges (MemoryHost.host MemoryHost.disk)
           MemoryHost.fileA (MemoryHost.settings false "custom" "0" true)).
  right. eexists. reflexivity.
Defined.

Lemma sortStage_save_fails (H : Host) (pdfDoc : Document)
  (settings : Settings) (message : string) :
  sortSku settings = true ->
  save H pdfDoc = Err message ->
  sortStage H pdfDoc settings = Err message.
Proof.
  intros Hsort Hsave. unfold sortStage. now rewrite Hsort, Hsave.
Qed.

Section SortedOutput.

Variable H : Host.
Variable universe : list PageData.
Hypothesis consistent : ConsistentOn H universe.

Lemma insertSorted_SkuOrder (pivot : PageData) (sorted : list PageData) :
  In pivot universe ->
  incl sorted universe ->
  StronglySorted (SkuOrder H) sorted ->
  Forall (fun e => (index e < index pivot)%nat) sorted ->
  StronglySorted (SkuOrder H) (insertSorted (compareSku H) pivot sorted).
Proof.
  destruct consistent as [Hanti Htrans].
  intros Hpivot Hincl Hsorted Hbefore.
  induction Hsorted as [|e rest Hrest IH Hall]; simpl.
  - repeat constructor.
  - assert (He : In e universe) by (apply Hincl; now left).
    assert (Hrest_in : incl rest universe)
      by (intros x Hx; apply Hincl; now right).
    inversion Hbefore as [|? ? He_lt Hrest_lt]; subst.
    destruct (compareSku H pivot e <? 0)%Z eqn:Ecmp.
    + apply Z.ltb_lt in Ecmp. constructor; [now constructor|].
      constructor.
      * split; [now apply Hanti|lia].
      * rewrite Forall_forall in *. intros x Hx.
        destruct (Hall x Hx) as [Hxe _].
        assert (Hlt : (compareSku H pivot x < 0)%Z)
          by (apply (Htrans pivot e x); auto).
        split; [apply Hanti; auto|lia].
    + apply Z.ltb_ge in Ecmp. constructor.
      * apply IH; assumption.
      * rewrite Forall_forall in *. intros x Hx.
        apply (Permutation_in _
                 (Permutation_sym (insertSorted_Permutation _ _ _))) in Hx.
        destruct Hx as [<-|Hx]; [|now apply Hall].
        split; [exact Ecmp|intros _; exact He_lt].
Qed.

Lemma sortBy_loop_SkuOrder (l : list PageData) :
  incl l universe ->
  StronglySorted (fun a b => (index a < index b)%nat) l ->
  forall acc,
    incl acc universe ->
    StronglySorted (SkuOrder H) acc ->
    Forall (fun e => Forall (fun x => (index e < index x)%nat) l) acc ->
    StronglySorted (SkuOrder H)
      (fold_left (fun sorted pivot => insertSorted (compareSku H) pivot sorted)
                 l acc).
Proof.
  intros Hincl Hidx. induction Hidx as [|x l Hl IH Hx];
    intros acc Hacc Hsorted Hbefore; simpl; [exact Hsorted|].
  assert (Hperm := insertSorted_Permutation (compareSku H) x acc).
  apply IH.
  - intros y Hy. apply Hincl. now right.
  - intros y Hy. apply (Permutation_in _ (Permutation_sym Hperm)) in Hy.
    destruct Hy as [<-|Hy]; [apply Hincl; now left|now apply Hacc].
  - apply insertSorted_SkuOrder; try assumption.
    + apply Hincl. now left.
    + rewrite Forall_forall in *. intros e He.
      specialize (Hbefore e He). now inversion Hbefore.
  - rewrite Forall_forall in *. intros e He.
    apply (Permutation_in _ (Permutation_sym Hperm)) in He.
    destruct He as [<-|He].
    + apply Forall_forall. intros y Hy. now apply Hx.
    + specialize (Hbefore e He). now inversion Hbefore.
Qed.

End SortedOutput.

Lemma collectPageData_increasing (H : Host) (bs : Bytes) (n : nat) :
  StronglySorted (fun a b => (index a < index b)%nat) (collectPageData H bs n).
Proof.
  unfold collectPageData.
  set (entry := fun i => mkPageData i _).
  assert (Hentry : forall i, index (entry i) = i) by reflexivity.
  clearbody entry. generalize 0%nat as start.
  induction n as [|n IH]; intros start; simpl; constructor.
  - apply IH.
  - apply Forall_forall. intros x Hx. apply in_map_iff in Hx.
    destruct Hx as [i [<- Hi]]. apply in_seq in Hi. rewrite !Hentry. lia.
Qed.

(** X4.  When the collation is consistent on the keys of the document,
    the sort stage orders the pages by upper-cased key and is stable: in
    the sorted array no entry compares below an earlier one, and two
    entries that tie stand in their order in the document; the pages
    returned are the pages the array names, in its order. *)
Theorem sortStage_sorted_stable
  (H : Host) (pdfDoc : Document) (settings : Settings) (bs : Bytes) :
  sortSku settings = true ->
  save H pdfDoc = Ok bs ->
  ConsistentOn H (collectPageData H bs (getPageCount pdfDoc)) ->
  exists (order : list PageData) (sorted : Document),
    sortStage H pdfDoc settings = Ok sorted /\
    Permutation (collectPageData H bs (getPageCount pdfDoc)) order /\
    map Some sorted = map (fun data => nth_error pdfDoc (index data)) order /\
    StronglySorted (SkuOrder H) order.
Proof.
  intros Hsort Hsave Hcons.
  destruct (sortStage_run H pdfDoc settings bs Hsort Hsave)
    as [sorted [Hrun Hpages]].
  exists (sortBy (compareSku H) (collectPageData H bs (getPageCount pdfDoc))),
         sorted.
  repeat split; try assumption.
  - apply sortBy_Permutation.
  - unfold sortBy.
    apply (sortBy_loop_SkuOrder H _ Hcons).
    + intros x Hx. exact Hx.
    + apply collectPageData_increasing.
    + intros x [].
    + constructor.
    + constructor.
Qed.

Lemma sortStage_sorted_stable_witness :
  exists (order : list PageData) (sorted : Document),
    sortStage (MemoryHost.host MemoryHost.disk)
      [MemoryHost.textPage "1 bb | A"; MemoryHost.textPage "1 aa | A";
       MemoryHost.textPage "1 BB | A"]
      (MemoryHost.settings false "custom" "0" true)
    = Ok sorted /\
    Permutation
      (collectPageData (MemoryHost.host MemoryHost.disk)
         (MemoryHost.encode
            [MemoryHost.textPage "1 bb | A"; MemoryHost.textPage "1 aa | A";
             MemoryHost.textPage "1 BB | A"])
         (getPageCount
            [MemoryHost.textPage "1 bb | A"; MemoryHost.textPage "1 aa | A";
             MemoryHost.textPage "1 BB | A"]))
      order /\
    map Some sorted
    = map (fun data =>
             nth_error
               [MemoryHost.textPage "1 bb | A"; MemoryHost.textPage "1 aa | A";
                MemoryHost.textPage "1 BB | A"]
               (index data))
          order /\
    StronglySorted (SkuOrder (MemoryHost.host MemoryHost.disk)) order.
Proof.
  apply (sortStage_sorted_stable (MemoryHost.host MemoryHost.disk)
           [MemoryHost.textPage "1 bb | A"; MemoryHost.textPage "1 aa | A";
            MemoryHost.textPage "1 BB | A"]
           (MemoryHost.settings false "custom" "0" true)
           (MemoryHost.encode
              [MemoryHost.textPage "1 bb | A"; MemoryHost.textPage "1 aa | A";
               MemoryHost.textPage "1 BB | A"])).
  - reflexivity.
  - reflexivity.
  - change (collectPageData (MemoryHost.host MemoryHost.disk)
              (MemoryHost.encode
                 [MemoryHost.textPage "1 bb | A"; MemoryHost.textPage "1 aa | A";
                  MemoryHost.textPage "1 BB | A"])
              (getPageCount
                 [MemoryHost.textPage "1 bb | A"; MemoryHost.textPage "1 aa | A";
                  MemoryHost.textPage "1 BB | A"]))
      with [mkPageData 0 "bb"; mkPageData 1 "aa"; mkPageData 2 "BB"].
    split.
    + intros a b Ha Hb. simpl in Ha, Hb.
      destruct Ha as [<-|[<-|[<-|[]]]]; destruct Hb as [<-|[<-|[<-|[]]]];
        vm_compute; intuition congruence.
    + intros a b c Ha Hb Hc. simpl in Ha, Hb, Hc.
      destruct Ha as [<-|[<-|[<-|[]]]]; destruct Hb as [<-|[<-|[<-|[]]]];
        destruct Hc as [<-|[<-|[<-|[]]]];
        vm_compute; intuition congruence.
Defined.

(** The run of the witness: the page with key aa first, then the two
    pages whose keys tie under upper-casing, in document order. *)
Lemma sortStage_tie_run :
  sortStage (MemoryHost.host MemoryHost.disk)
    [MemoryHost.textPage "1 bb | A"; MemoryHost.textPage "1 aa | A";
     MemoryHost.textPage "1 BB | A"]
    (MemoryHost.settings false "custom" "0" true)
  = Ok [MemoryHost.textPage "1 aa | A"; MemoryHost.textPage "1 bb | A";
        MemoryHost.textPage "1 BB | A"].
Proof. vm_compute. reflexivity. Qed.

(* ================================================================= *)
(** ** What the pipeline keeps of the loaded pages *)

Lemma marginCropPage_loadedPart (m : Q) (page : Page) :
  loadedPart (marginCropPage m page) = loadedPart page.
Proof.
  unfold marginCropPage, getSize.
  now destruct (Qgtb _ 0 && Qgtb _ 0).
Qed.

Lemma cropStage_loadedPart (pdfDoc cropped : Document) (settings : Settings) :
  cropStage pdfDoc settings = Ok cropped ->
  map loadedPart cropped = map loadedPart pdfDoc.
Proof.
  unfold cropStage.
  destruct (String.eqb (platform settings) "flipkart").
  - destruct (cropBox_of (getPlatformPreset (platform settings))) as [box|].
    + rewrite cropFlipkart_map. intros E. injection E as <-.
      rewrite map_map. now apply map_ext.
    + intros E. now injection E as <-.
  - destruct (nonEmpty (margin settings)
              && negb (String.eqb (margin settings) "0")).
    + destruct (parseInt (margin settings)) as [m|].
      * intros E. injection E as <-. unfold applyMarginCrop, getPages.
        rewrite map_map. apply map_ext. intros page.
        apply marginCropPage_loadedPart.
      * intros E. now injection E as <-.
    + intros E. now injection E as <-.
Qed.

(** C2.  With platform ["flipkart"], the run does not depend on the
    margin setting: replacing the margin by any other value gives the same
    document and the same result of [processPDF].  The crop step gives
    every loaded page the one fixed crop box, and the document the
    pipeline produces is made of the loaded pages, each with that crop
    box (in the loaded order when the sort is off). *)
Theorem flipkart_margin_ignored
  (H : Host) (filePaths : list string) (settings : Settings) (m : string) :
  platform settings = "flipkart" ->
  processDocument H filePaths (with_margin settings m)
  = processDocument H filePaths settings /\
  processPDF H filePaths (with_margin settings m)
  = processPDF H filePaths settings /\
  (forall loaded,
      cropStage loaded (with_margin settings m)
      = Ok (map (setCropBox 165 460 265 360) loaded)) /\
  forall pdfDoc,
    processDocument H filePaths (with_margin settings m) = Ok pdfDoc ->
    exists loaded,
      loadStage H filePaths (with_margin settings m) = Ok loaded /\
      Permutation
        (map pageBoxes (map (setCropBox 165 460 265 360) loaded))
        (map pageBoxes pdfDoc) /\
      (sortSku settings = false ->
       map pageBoxes pdfDoc
       = map pageBoxes (map (setCropBox 165 460 265 360) loaded)) /\
      getPageCount pdfDoc = getPageCount loaded /\
      Forall (fun page => cropBox page = Some (mkRect 165 460 265 360))
             pdfDoc.
Proof.
  intros Hp.
  assert (Hsame : processDocument H filePaths (with_margin settings m)
                  = processDocument H filePaths settings).
  { unfold processDocument.
    change (loadStage H filePaths (with_margin settings m))
      with (loadStage H filePaths settings).
    destruct (loadStage H filePaths settings) as [loaded|]; simpl;
      [|reflexivity].
    rewrite (cropStage_flipkart loaded settings Hp).
    rewrite (cropStage_flipkart loaded (with_margin settings m) Hp).
    reflexivity. }
  split; [exact Hsame|]. split; [unfold processPDF; now rewrite Hsame|].
  split; [intros loaded; now apply cropStage_flipkart|].
  intros pdfDoc. unfold processDocument.
  destruct (loadStage H filePaths (with_margin settings m)) as [loaded|];
    simpl; [|discriminate].
  rewrite (cropStage_flipkart loaded (with_margin settings m) Hp). simpl.
  destruct (sortStage H (map (setCropBox 165 460 265 360) loaded)
                      (with_margin settings m))
    as [sorted|] eqn:Hsort; simpl; [|discriminate].
  intros Hstamp. exists loaded.
  pose proof (sortStage_Permutation _ _ _ _ Hsort) as Hperm.
  pose proof (stampStage_pageBoxes _ _ _ _ Hstamp) as Hst.
  assert (Hboxes : Permutation
                     (map pageBoxes (map (setCropBox 165 460 265 360) loaded))
                     (map pageBoxes pdfDoc)).
  { rewrite Hst. now apply Permutation_map. }
  split; [reflexivity|]. split; [exact Hboxes|]. split; [|split].
  - intros Hoff. rewrite Hst. unfold sortStage in Hsort.
    simpl in Hsort. rewrite Hoff in Hsort. now injection Hsort as <-.
  - unfold getPageCount. apply Permutation_length in Hboxes.
    rewrite !length_map in Hboxes. now symmetry.
  - apply Forall_forall. intros page Hin.
    apply (in_map pageBoxes) in Hin.
    apply (Permutation_in _ (Permutation_sym Hboxes)) in Hin.
    rewrite map_map in Hin. apply in_map_iff in Hin.
    destruct Hin as [q [Hq _]]. unfold pageBoxes in Hq. simpl in Hq.
    now injection Hq as _ <- _.
Qed.

Lemma flipkart_margin_ignored_witness :
  processDocument (MemoryHost.host MemoryHost.disk) ["a.pdf"]
    (with_margin (MemoryHost.settings false "flipkart" "40" true) "9999")
  = processDocument (MemoryHost.host MemoryHost.disk) ["a.pdf"]
      (MemoryHost.settings false "flipkart" "40" true) /\
  processPDF (MemoryHost.host MemoryHost.disk) ["a.pdf"]
    (with_margin (MemoryHost.settings false "flipkart" "40" true) "9999")
  = processPDF (MemoryHost.host MemoryHost.disk) ["a.pdf"]
      (MemoryHost.settings false "flipkart" "40" true) /\
  (forall loaded,
      cropStage loaded
        (with_margin (MemoryHost.settings false "flipkart" "40" true) "9999")
      = Ok (map (setCropBox 165 460 265 360) loaded)) /\
  forall pdfDoc,
    processDocument (MemoryHost.host MemoryHost.disk) ["a.pdf"]
      (with_margin (MemoryHost.settings false "flipkart" "40" true) "9999")
    = Ok pdfDoc ->
    exists loaded,
      loadStage (MemoryHost.host MemoryHost.disk) ["a.pdf"]
        (with_margin (MemoryHost.settings false "flipkart" "40" true) "9999")
      = Ok loaded /\
      Permutation
        (map pageBoxes (map (setCropBox 165 460 265 360) loaded))
        (map pageBoxes pdfDoc) /\
      (sortSku (MemoryHost.settings false "flipkart" "40" true) = false ->
       map pageBoxes pdfDoc
       = map pageBoxes (map (setCropBox 165 460 265 360) loaded)) /\
      getPageCount pdfDoc = getPageCount loaded /\
      Forall (fun page => cropBox page = Some (mkRect 165 460 265 360))
             pdfDoc.
Proof.
  apply (flipkart_margin_ignored
           (MemoryHost.host MemoryHost.disk) ["a.pdf"]
           (MemoryHost.settings false "flipkart" "40" true) "9999").
  reflexivity.
Defined.

(** The run of the witness: both loaded pages, sorted, with the fixed
    crop box. *)
Lemma flipkart_run :
  processDocument (MemoryHost.host MemoryHost.disk) ["a.pdf"]
    (with_margin (MemoryHost.settings false "flipkart" "40" true) "9999")
  = Ok [setCropBox 165 460 265 360 (MemoryHost.textPage EmptyString);
        setCropBox 165 460 265 360 (MemoryHost.textPage "1 zzz_z | A")].
Proof. vm_compute. reflexivity. Qed.

(** X5.  Whatever the settings, the document [processPDF] serializes holds
    the loaded pages and no other: same number of pages, each with the
    MediaBox and the content it was loaded with; without [sortSku] they
    are in the loaded order. *)
Theorem processDocument_keeps_pages
  (H : Host) (filePaths : list string) (settings : Settings)
  (pdfDoc : Document) :
  processDocument H filePaths settings = Ok pdfDoc ->
  exists loaded,
    loadStage H filePaths settings = Ok loaded /\
    Permutation (map loadedPart loaded) (map loadedPart pdfDoc) /\
    getPageCount pdfDoc = getPageCount loaded /\
    (sortSku settings = false ->
     map loadedPart pdfDoc = map loadedPart loaded).
Proof.
  unfold processDocument.
  destruct (loadStage H filePaths settings) as [loaded|]; simpl;
    [|discriminate].
  destruct (cropStage loaded settings) as [cropped|] eqn:Hcrop; simpl;
    [|discriminate].
  destruct (sortStage H cropped settings) as [sorted|] eqn:Hsort; simpl;
    [|discriminate].
  intros Hstamp. exists loaded.
  pose proof (cropStage_loadedPart _ _ _ Hcrop) as Hc.
  pose proof (sortStage_Permutation _ _ _ _ Hsort) as Hs.
  pose proof (stampStage_loadedPart _ _ _ _ Hstamp) as Hst.
  assert (Hperm : Permutation (map loadedPart loaded)
                    (map loadedPart pdfDoc)).
  { rewrite Hst, <- Hc. now apply Permutation_map. }
  repeat split.
  - exact Hperm.
  - unfold getPageCount.
    rewrite <- (length_map loadedPart pdfDoc).
    rewrite <- (length_map loadedPart loaded).
    symmetry. now apply Permutation_length.
  - intros Hoff. rewrite Hst, <- Hc.
    unfold sortStage in Hsort. rewrite Hoff in Hsort.
    now injection Hsort as <-.
Qed.

Lemma processDocument_keeps_pages_witness :
  exists loaded,
    loadStage (MemoryHost.host MemoryHost.disk) ["a.pdf"; "b.pdf"]
              (MemoryHost.settings true "meesho" "40" true)
    = Ok loaded /\
    Permutation
      (map loadedPart loaded)
      (map loadedPart
         [setCropBox 40 40 (595 - 2 * 40) (842 - 2 * 40)
            (MemoryHost.textPage "1 sp_megha red chiku | MFTEXO");
          setCropBox 40 40 (595 - 2 * 40) (842 - 2 * 40)
            (MemoryHost.textPage EmptyString);
          setCropBox 40 40 (595 - 2 * 40) (842 - 2 * 40)
            (MemoryHost.textPage "1 zzz_z | A")]) /\
    getPageCount
      [setCropBox 40 40 (595 - 2 * 40) (842 - 2 * 40)
         (MemoryHost.textPage "1 sp_megha red chiku | MFTEXO");
       setCropBox 40 40 (595 - 2 * 40) (842 - 2 * 40)
         (MemoryHost.textPage EmptyString);
       setCropBox 40 40 (595 - 2 * 40) (842 - 2 * 40)
         (MemoryHost.textPage "1 zzz_z | A")]
    = getPageCount loaded /\
    (sortSku (MemoryHost.settings true "meesho" "40" true) = false ->
     map loadedPart
       [setCropBox 40 40 (595 - 2 * 40) (842 - 2 * 40)
          (MemoryHost.textPage "1 sp_megha red chiku | MFTEXO");
        setCropBox 40 40 (595 - 2 * 40) (842 - 2 * 40)
          (MemoryHost.textPage EmptyString);
        setCropBox 40 40 (595 - 2 * 40) (842 - 2 * 40)
          (MemoryHost.textPage "1 zzz_z | A")]
     = map loadedPart loaded).
Proof.
  apply (processDocument_keeps_pages
           (MemoryHost.host MemoryHost.disk) ["a.pdf"; "b.pdf"]
           (MemoryHost.settings true "meesho" "40" true)).
  vm_compute. reflexivity.
Defined.

(* ================================================================= *)
(** ** Stamps *)





(** X7.  The stamps are placed from the origin of the page coordinates,
    not from the MediaBox: on a page whose MediaBox starts at (x0, y0)
    the date text ends 10 + x0 points before the right edge, on a
    baseline 10 - y0 points above the bottom edge, and the custom text has
    2 x0 more room on its right than on its left, on a baseline 25 + y0
    points below the top edge.  So the date is right-aligned at 10 points
    and the text centred exactly on the pages whose MediaBox starts at the
    origin. *)
Theorem stamp_positions
  (H : Host) (pdfDoc stampedDoc : Document) (settings : Settings)
  (i : nat) (page : Page) :
  stampStage H pdfDoc settings = Ok stampedDoc ->
  nth_error pdfDoc i = Some page ->
  let x0 := rx (mediaBox page) in
  let y0 := ry (mediaBox page) in
  let right := (x0 + rwidth (mediaBox page))%Q in
  let top := (y0 + rheight (mediaBox page))%Q in
  exists page',
    nth_error stampedDoc i = Some page' /\
    (addDateTime settings = true ->
     exists w d,
       widthOfTextAtSize H Helvetica (dateTimeText H) 8 = Ok w /\
       In d (drawn page') /\ dt_text d = dateTimeText H /\
       (right - (dt_x d + w) == 10 + x0)%Q /\
       (dt_y d - y0 == 10 - y0)%Q) /\
    (drawsText settings = true ->
     exists w d,
       widthOfTextAtSize H HelveticaBold (customText settings) 12 = Ok w /\
       In d (drawn page') /\ dt_text d = customText settings /\
       ((right - (dt_x d + w)) - (dt_x d - x0) == 2 * x0)%Q /\
       (top - dt_y d == 25 + y0)%Q).
Proof.
  intros Hrun Hnth x0 y0 right top.
  destruct (stampStage_run _ _ _ _ Hrun) as [w1 [w2 [-> [Hw1 Hw2]]]].
  assert (Hne : pdfDoc <> []) by (intros ->; now destruct i).
  exists (stamped H settings w1 w2 page).
  split; [now rewrite nth_error_map, Hnth|]. split.
  - intros Hdate. exists w1, (dateStamp (dateTimeText H) w1 page).
    split; [now apply Hw1|]. split.
    + unfold stamped. simpl. rewrite Hdate. apply in_or_app. right.
      now left.
    + split; [reflexivity|]. subst x0 y0 right top. simpl.
      split; ring.
  - intros Htext. exists w2, (textStamp (customText settings) w2 page).
    split; [now apply Hw2|]. split.
    + unfold stamped. simpl. rewrite Htext. apply in_or_app. right.
      apply in_or_app. right. now left.
    + split; [reflexivity|]. subst x0 y0 right top. simpl.
      split; field.
Qed.

Lemma stamp_positions_witness :
  exists page',
    nth_error
      [stamped (MemoryHost.host MemoryHost.disk)
         (mkSettings false "custom" "0" false true true "ab")
         (measured "02/11/2026, 10:15:00 am" 8) (measured "ab" 12)
         (mkPage (mkRect 100 100 595 842) None "label" [])] 0
    = Some page' /\
    (addDateTime (mkSettings false "custom" "0" false true true "ab") = true ->
     exists w d,
       widthOfTextAtSize (MemoryHost.host MemoryHost.disk) Helvetica
         (dateTimeText (MemoryHost.host MemoryHost.disk)) 8 = Ok w /\
       In d (drawn page') /\
       dt_text d = dateTimeText (MemoryHost.host MemoryHost.disk) /\
       ((100 + 595) - (dt_x d + w) == 10 + 100)%Q /\
       (dt_y d - 100 == 10 - 100)%Q) /\
    (drawsText (mkSettings false "custom" "0" false true true "ab") = true ->
     exists w d,
       widthOfTextAtSize (MemoryHost.host MemoryHost.disk) HelveticaBold
         "ab" 12 = Ok w /\
       In d (drawn page') /\ dt_text d = "ab" /\
       (((100 + 595) - (dt_x d + w)) - (dt_x d - 100) == 2 * 100)%Q /\
       ((100 + 842) - dt_y d == 25 + 100)%Q).
Proof.
  apply (stamp_positions (MemoryHost.host MemoryHost.disk)
           [mkPage (mkRect 100 100 595 842) None "label" []]
           [stamped (MemoryHost.host MemoryHost.disk)
              (mkSettings false "custom" "0" false true true "ab")
              (measured "02/11/2026, 10:15:00 am" 8) (measured "ab" 12)
              (mkPage (mkRect 100 100 595 842) None "label" [])]
           (mkSettings false "custom" "0" false true true "ab") 0
           (mkPage (mkRect 100 100 595 842) None "label" [])).
  - vm_compute. reflexivity.
  - reflexivity.
Defined.

(* ================================================================= *)
(** ** Edges of the load and crop stages *)

Lemma merge_step_fails (H : Host) (pdfDoc : Document) (filePath : string)
  (message : string) :
  loadFile H filePath = Err message ->
  merge_step H pdfDoc filePath = Err message.
Proof.
  unfold loadFile, merge_step.
  destruct (readFile H filePath) as [bs|]; simpl; [|easy].
  now intros ->.
Qed.

Lemma foldM_app {S A : Type} (f : S -> A -> Result S) (l1 l2 : list A) (s : S) :
  foldM f (l1 ++ l2) s = (s' <- foldM f l1 s ;; foldM f l2 s').
Proof.
  revert s. induction l1 as [|a l1 IH]; intros s; simpl; [reflexivity|].
  destruct (f s a); simpl; [apply IH|reflexivity].
Qed.

(** X8.  When merging, the first file that cannot be read or parsed aborts
    the run with its own message, whatever files come after it; the
    caller gets that message behind the prefix. *)
Theorem merge_first_failure
  (H : Host) (settings : Settings) (good : list string)
  (docs : list Document) (bad : string) (rest : list string)
  (message : string) :
  mergePdf settings = true ->
  (1 < List.length (good ++ bad :: rest))%nat ->
  Forall2 (fun path d => loadFile H path = Ok d) good docs ->
  loadFile H bad = Err message ->
  loadStage H (good ++ bad :: rest) settings = Err message /\
  processPDF H (good ++ bad :: rest) settings
  = Err ("PDF processing failed: " ++ message)%string.
Proof.
  intros Hmerge Hlen Hgood Hbad.
  assert (Hload : loadStage H (good ++ bad :: rest) settings = Err message).
  { unfold loadStage. rewrite Hmerge. apply Nat.ltb_lt in Hlen.
    rewrite Hlen. simpl andb. cbv iota.
    rewrite foldM_app, (merge_loop H good docs Hgood). simpl.
    now rewrite (merge_step_fails H _ bad message Hbad). }
  split; [exact Hload|].
  unfold processPDF, processDocument. rewrite Hload. reflexivity.
Qed.

Lemma merge_first_failure_witness :
  loadStage (MemoryHost.host MemoryHost.disk)
            (["a.pdf"] ++ "missing.pdf" :: ["b.pdf"])
            (MemoryHost.settings true "custom" "0" false)
  = Err "ENOENT: no such file or directory" /\
  processPDF (MemoryHost.host MemoryHost.disk)
             (["a.pdf"] ++ "missing.pdf" :: ["b.pdf"])
             (MemoryHost.settings true "custom" "0" false)
  = Err ("PDF processing failed: " ++ "ENOENT: no such file or directory")%string.
Proof.
  apply (merge_first_failure (MemoryHost.host MemoryHost.disk)
           (MemoryHost.settings true "custom" "0" false)
           ["a.pdf"] [MemoryHost.fileA] "missing.pdf" ["b.pdf"]).
  - reflexivity.
  - simpl. lia.
  - repeat constructor.
  - reflexivity.
Defined.

(** X9.  With fewer than two input files [mergePdf] changes nothing:
    the run is the same whether it is set or not.  With no file at all the
    run fails before anything is read, with the [TypeError] of
    [fs.readFile(undefined)] behind the prefix. *)
Theorem loadStage_few_files
  (H : Host) (filePaths : list string) (settings : Settings) (merge : bool) :
  (List.length filePaths <= 1)%nat ->
  loadStage H filePaths (with_mergePdf settings merge)
  = loadStage H filePaths settings /\
  processDocument H filePaths (with_mergePdf settings merge)
  = processDocument H filePaths settings /\
  processPDF H filePaths (with_mergePdf settings merge)
  = processPDF H filePaths settings /\
  (filePaths = [] ->
   processPDF H filePaths settings
   = Err ("PDF processing failed: The " ++ dquote ++ "path" ++ dquote
          ++ " argument must be of type string or an instance of Buffer or URL. Received undefined")%string).
Proof.
  intros Hlen.
  assert (Hload : loadStage H filePaths (with_mergePdf settings merge)
                  = loadStage H filePaths settings).
  { unfold loadStage. destruct filePaths as [|p [|q rest]].
    - simpl. now rewrite !andb_false_r.
    - simpl. now rewrite !andb_false_r.
    - simpl in Hlen. lia. }
  assert (Hdoc : processDocument H filePaths (with_mergePdf settings merge)
                 = processDocument H filePaths settings).
  { unfold processDocument. rewrite Hload. reflexivity. }
  repeat match goal with |- _ /\ _ => split end; try assumption.
  - unfold processPDF. now rewrite Hdoc.
  - intros ->. unfold processPDF, processDocument, loadStage. simpl.
    rewrite andb_false_r. reflexivity.
Qed.

Lemma loadStage_few_files_witness :
  loadStage (MemoryHost.host MemoryHost.disk) ["a.pdf"]
    (with_mergePdf (MemoryHost.settings false "custom" "0" false) true)
  = loadStage (MemoryHost.host MemoryHost.disk) ["a.pdf"]
      (MemoryHost.settings false "custom" "0" false) /\
  processDocument (MemoryHost.host MemoryHost.disk) ["a.pdf"]
    (with_mergePdf (MemoryHost.settings false "custom" "0" false) true)
  = processDocument (MemoryHost.host MemoryHost.disk) ["a.pdf"]
      (MemoryHost.settings false "custom" "0" false) /\
  processPDF (MemoryHost.host MemoryHost.disk) ["a.pdf"]
    (with_mergePdf (MemoryHost.settings false "custom" "0" false) true)
  = processPDF (MemoryHost.host MemoryHost.disk) ["a.pdf"]
      (MemoryHost.settings false "custom" "0" false) /\
  (["a.pdf"] = [] ->
   processPDF (MemoryHost.host MemoryHost.disk) ["a.pdf"]
     (MemoryHost.settings false "custom" "0" false)
   = Err ("PDF processing failed: The " ++ dquote ++ "path" ++ dquote
          ++ " argument must be of type string or an instance of Buffer or URL. Received undefined")%string).
Proof.
  apply (loadStage_few_files (MemoryHost.host MemoryHost.disk) ["a.pdf"]
           (MemoryHost.settings false "custom" "0" false) true).
  simpl. lia.
Defined.

(** X10.  [processPDF] looks at the platform only to tell flipkart from
    the rest: two runs that differ in the platform alone, neither being
    flipkart, give the same result; the margin presets of the platforms
    play no part in it. *)
Theorem platform_name_irrelevant
  (H : Host) (filePaths : list string) (settings : Settings)
  (other : string) :
  platform settings <> "flipkart" ->
  other <> "flipkart" ->
  processDocument H filePaths (with_platform settings other)
  = processDocument H filePaths settings /\
  processPDF H filePaths (with_platform settings other)
  = processPDF H filePaths settings.
Proof.
  intros Hp Ho.
  assert (Hcrop : forall d, cropStage d (with_platform settings other)
                            = cropStage d settings).
  { intros d. unfold cropStage. simpl.
    apply String.eqb_neq in Hp. apply String.eqb_neq in Ho.
    now rewrite Hp, Ho. }
  assert (Hdoc : processDocument H filePaths (with_platform settings other)
                 = processDocument H filePaths settings).
  { unfold processDocument.
    change (loadStage H filePaths (with_platform settings other))
      with (loadStage H filePaths settings).
    destruct (loadStage H filePaths settings) as [loaded|]; simpl;
      [|reflexivity].
    rewrite Hcrop. reflexivity. }
  split; [exact Hdoc|]. unfold processPDF. now rewrite Hdoc.
Qed.

Lemma platform_name_irrelevant_witness :
  processDocument (MemoryHost.host MemoryHost.disk) ["a.pdf"]
    (with_platform (MemoryHost.settings false "meesho" "10" true) "amazon")
  = processDocument (MemoryHost.host MemoryHost.disk) ["a.pdf"]
      (MemoryHost.settings false "meesho" "10" true) /\
  processPDF (MemoryHost.host MemoryHost.disk) ["a.pdf"]
    (with_platform (MemoryHost.settings false "meesho" "10" true) "amazon")
  = processPDF (MemoryHost.host MemoryHost.disk) ["a.pdf"]
      (MemoryHost.settings false "meesho" "10" true).
Proof.
  apply (platform_name_irrelevant (MemoryHost.host MemoryHost.disk) ["a.pdf"]
           (MemoryHost.settings false "meesho" "10" true) "amazon");
    discriminate.
Defined.

(** X11.  Off flipkart, a margin that is the string ["0"] or that does not
    start with a number (empty, or text that [parseInt] turns into [NaN])
    crops nothing: the crop stage returns the document as it is. *)
Theorem cropStage_no_margin (pdfDoc : Document) (settings : Settings) :
  platform settings <> "flipkart" ->
  margin settings = "0" \/ parseInt (margin settings) = None ->
  cropStage pdfDoc settings = Ok pdfDoc.
Proof.
  intros Hp Hm. unfold cropStage. apply String.eqb_neq in Hp. rewrite Hp.
  destruct Hm as [->|Hnan].
  - reflexivity.
  - rewrite Hnan. now destruct (_ && _).
Qed.

Lemma cropStage_no_margin_witness :
  cropStage MemoryHost.fileA (MemoryHost.settings false "meesho" "wide" false)
  = Ok MemoryHost.fileA.
Proof.
  apply (cropStage_no_margin MemoryHost.fileA
           (MemoryHost.settings false "meesho" "wide" false)).
  - discriminate.
  - right. reflexivity.
Defined.




(* ================================================================= *)
(** ** The upload route *)

(** The seven ways a platform name is resolved. *)
Lemma getPlatformPreset_cases (platform : string) :
  (platform = "flipkart" /\
   getPlatformPreset platform = PresetObject flipkart_preset) \/
  (platform = "meesho" /\
   getPlatformPreset platform = PresetObject meesho_preset) \/
  (platform = "amazon" /\
   getPlatformPreset platform = PresetObject amazon_preset) \/
  (platform = "citymall" /\
   getPlatformPreset platform = PresetObject citymall_preset) \/
  (platform <> "flipkart" /\ platform <> "meesho" /\ platform <> "amazon" /\
   platform <> "citymall" /\ inb platform Object_prototype = false /\
   getPlatformPreset platform = PresetObject custom_preset) \/
  (platform <> "flipkart" /\ inb platform Object_prototype = true /\
   getPlatformPreset platform = Inherited platform).
Proof.
  unfold getPlatformPreset.
  change (getProperty "custom") with (PresetObject custom_preset).
  unfold getProperty.
  change (ownProperty CROP_PRESETS platform)
    with (if String.eqb "flipkart" platform then Some flipkart_preset
          else if String.eqb "meesho" platform then Some meesho_preset
          else if String.eqb "amazon" platform then Some amazon_preset
          else if String.eqb "citymall" platform then Some citymall_preset
          else if String.eqb "custom" platform then Some custom_preset
          else None).
  destruct (String.eqb_spec "flipkart" platform) as [<-|Hf]; [now left|].
  destruct (String.eqb_spec "meesho" platform) as [<-|Hm];
    [right; now left|].
  destruct (String.eqb_spec "amazon" platform) as [<-|Ha];
    [right; right; now left|].
  destruct (String.eqb_spec "citymall" platform) as [<-|Hc];
    [right; right; right; now left|].
  destruct (String.eqb_spec "custom" platform) as [<-|Hcu].
  - right; right; right; right; left. repeat split; discriminate.
  - destruct (inb platform Object_prototype) eqn:Hproto; simpl.
    + right; right; right; right; right.
      split; [congruence|]. split; reflexivity.
    + right; right; right; right; left.
      repeat (split; [congruence|]). split; reflexivity.
Qed.

(** X13.  When the form carries the default margin (["50"], or none), the
    route replaces it by the margin of the platform preset: 40, 45 or 35
    for meesho, amazon, citymall, 50 for every other name that resolves
    to the custom preset.  For flipkart, and for a platform that is the
    name of a property of [Object.prototype], the preset has no margin and
    the replacement throws. *)
Theorem applyPlatformPreset_default_margin (u : UploadSettings) :
  up_margin u = "50" \/ up_margin u = EmptyString ->
  match applyPlatformPreset u with
  | Ok u' =>
      up_platform u <> "flipkart" /\
      inb (up_platform u) Object_prototype = false /\
      u' = set_margin u
             (if String.eqb (up_platform u) "meesho" then "40"
              else if String.eqb (up_platform u) "amazon" then "45"
              else if String.eqb (up_platform u) "citymall" then "35"
              else "50")
  | Err message =>
      message = "Cannot read properties of undefined (reading 'toString')" /\
      (up_platform u = "flipkart" \/
       inb (up_platform u) Object_prototype = true)
  end.
Proof.
  intros Hdefault. unfold applyPlatformPreset.
  assert (Hguard : negb (nonEmpty (up_margin u))
                   || String.eqb (up_margin u) "50" = true)
    by (destruct Hdefault as [->| ->]; reflexivity).
  rewrite Hguard.
  destruct (getPlatformPreset_cases (up_platform u))
    as [[Hp Hv]|[[Hp Hv]|[[Hp Hv]|[[Hp Hv]|[Hv|Hv]]]]].
  - rewrite Hv. simpl. split; [reflexivity|now left].
  - rewrite Hv, Hp. simpl. repeat split. discriminate.
  - rewrite Hv, Hp. simpl. repeat split. discriminate.
  - rewrite Hv, Hp. simpl. repeat split. discriminate.
  - destruct Hv as [Hf [Hm [Ha [Hc [Hproto Hv]]]]]. rewrite Hv. simpl.
    apply String.eqb_neq in Hm, Ha, Hc. rewrite Hm, Ha, Hc.
    repeat split; assumption.
  - destruct Hv as [Hf [Hproto Hv]]. rewrite Hv. simpl.
    split; [reflexivity|now right].
Qed.

Lemma applyPlatformPreset_default_margin_witness :
  match applyPlatformPreset
          (settingsOfBody (fun field =>
             if String.eqb field "platform" then Some "flipkart" else None))
  with
  | Ok u' =>
      "flipkart" <> "flipkart" /\
      inb "flipkart" Object_prototype = false /\
      u' = set_margin
             (settingsOfBody (fun field =>
                if String.eqb field "platform" then Some "flipkart"
                else None))
             "50"
  | Err message =>
      message = "Cannot read properties of undefined (reading 'toString')" /\
      ("flipkart" = "flipkart" \/ inb "flipkart" Object_prototype = true)
  end.
Proof.
  apply (applyPlatformPreset_default_margin
           (settingsOfBody (fun field =>
              if String.eqb field "platform" then Some "flipkart" else None))).
  left. reflexivity.
Defined.

Lemma applyPlatformPreset_throws (u : UploadSettings) :
  up_margin u = "50" \/ up_margin u = EmptyString ->
  up_platform u = "flipkart" \/ inb (up_platform u) Object_prototype = true ->
  applyPlatformPreset u = Err toString_of_undefined_message.
Proof.
  intros Hdefault Hbad. unfold applyPlatformPreset.
  assert (Hguard : negb (nonEmpty (up_margin u))
                   || String.eqb (up_margin u) "50" = true)
    by (destruct Hdefault as [->| ->]; reflexivity).
  rewrite Hguard.
  destruct (getPlatformPreset_cases (up_platform u))
    as [[Hp Hv]|[[Hp Hv]|[[Hp Hv]|[[Hp Hv]|[Hv|Hv]]]]].
  - rewrite Hv. reflexivity.
  - exfalso. destruct Hbad as [Hb|Hb]; rewrite Hp in Hb; discriminate.
  - exfalso. destruct Hbad as [Hb|Hb]; rewrite Hp in Hb; discriminate.
  - exfalso. destruct Hbad as [Hb|Hb]; rewrite Hp in Hb; discriminate.
  - exfalso. destruct Hv as [Hf [_ [_ [_ [Hproto _]]]]].
    destruct Hbad as [Hb|Hb]; congruence.
  - destruct Hv as [_ [_ Hv]]. rewrite Hv. reflexivity.
Qed.

(** X14.  An upload for flipkart (or for a platform named like a property
    of [Object.prototype]) that carries the default margin, or none, is
    never processed: the route answers 500 with the [TypeError] message of
    the preset read, writes no output, and unlinks the uploaded files that
    exist; the PDF host is not consulted. *)
Theorem upload_without_margin_preset
  (S : Server) (file : UploadedFile) (files : list UploadedFile)
  (body : string -> option string) :
  field_or (body "platform") "custom" = "flipkart" \/
  inb (field_or (body "platform") "custom") Object_prototype = true ->
  field_or (body "margin") "50" = "50" ->
  uploadHandler S (Some (file :: files)) body
  = (ServerError "Cannot read properties of undefined (reading 'toString')",
     map Unlink (filter (existsSync S) (map file_path (file :: files)))).
Proof.
  intros Hbad Hmargin. unfold uploadHandler, uploadTry.
  rewrite (applyPlatformPreset_throws (settingsOfBody body)).
  - reflexivity.
  - left. exact Hmargin.
  - exact Hbad.
Qed.

Lemma upload_without_margin_preset_witness :
  uploadHandler (memoryServer MemoryHost.disk)
    (Some [mkUploadedFile "a.pdf" "labels.pdf"; mkUploadedFile "gone.pdf" "x.pdf"])
    (fun field => if String.eqb field "platform" then Some "flipkart" else None)
  = (ServerError "Cannot read properties of undefined (reading 'toString')",
     map Unlink
       (filter (existsSync (memoryServer MemoryHost.disk))
          (map file_path
             [mkUploadedFile "a.pdf" "labels.pdf";
              mkUploadedFile "gone.pdf" "x.pdf"]))).
Proof.
  apply (upload_without_margin_preset (memoryServer MemoryHost.disk)
           (mkUploadedFile "a.pdf" "labels.pdf")
           [mkUploadedFile "gone.pdf" "x.pdf"]
           (fun field =>
              if String.eqb field "platform" then Some "flipkart" else None)).
  - left. reflexivity.
  - reflexivity.
Defined.

Lemma uploadTry_outcome (S : Server) (files : list UploadedFile)
  (body : string -> option string) (response : Response) (trace : list FsOp) :
  uploadTry S files body = Ok (response, trace) ->
  exists u data name,
    applyPlatformPreset (settingsOfBody body) = Ok u /\
    processPDF (server_host S) (map file_path files) (toSettings u) = Ok data /\
    outputFilename (Date_now S) u files = Ok name /\
    writeFile S (path_join S "cropped" name) data = Ok tt /\
    response = Success ("/cropped/" ++ name)%string name u /\
    trace = WriteFile (path_join S "cropped" name) data
            :: map Unlink (map file_path files).
Proof.
  unfold uploadTry.
  destruct (applyPlatformPreset (settingsOfBody body)) as [u|] eqn:Hu; simpl;
    [|discriminate].
  destruct (processPDF (server_host S) (map file_path files) (toSettings u))
    as [data|] eqn:Hpdf; simpl; [|discriminate].
  destruct (outputFilename (Date_now S) u files) as [name|] eqn:Hname; simpl;
    [|discriminate].
  destruct (writeFile S (path_join S "cropped" name) data) as [[]|] eqn:Hw;
    simpl; [|discriminate].
  intros E. injection E as <- <-. exists u, data, name. now repeat split.
Qed.

(** X15.  Whatever the outcome of an upload with files, every uploaded
    file that exists is unlinked; the route writes at most one file, only
    when it answers with success, and then it is the output of
    [processPDF], written under the [cropped] directory with the name
    given in the response. *)
Theorem upload_cleans_up
  (S : Server) (files : list UploadedFile) (body : string -> option string)
  (response : Response) (trace : list FsOp) :
  files <> [] ->
  uploadHandler S (Some files) body = (response, trace) ->
  (forall file, In file files -> existsSync S (file_path file) = true ->
                In (Unlink (file_path file)) trace) /\
  (forall path data,
      In (WriteFile path data) trace ->
      exists name u,
        response = Success ("/cropped/" ++ name)%string name u /\
        path = path_join S "cropped" name /\
        processPDF (server_host S) (map file_path files) (toSettings u)
        = Ok data) /\
  (forall error, response <> BadRequest error).
Proof.
  intros Hfiles Hrun. destruct files as [|file files]; [contradiction|].
  unfold uploadHandler in Hrun.
  destruct (uploadTry S (file :: files) body) as [[resp tr]|message] eqn:Htry.
  - injection Hrun as -> ->.
    destruct (uploadTry_outcome _ _ _ _ _ Htry)
      as [u [data [name [_ [Hpdf [_ [_ [-> ->]]]]]]]].
    repeat split.
    + intros f Hin _. right. apply in_map. now apply in_map.
    + intros path d [E|Hin].
      * injection E as <- <-. now exists name, u.
      * apply in_map_iff in Hin. destruct Hin as [x [E _]]. discriminate.
    + discriminate.
  - injection Hrun as <- <-. repeat split.
    + intros f Hin Hex. apply in_map.
      change (In (file_path f)
                 (filter (existsSync S) (map file_path (file :: files)))).
      apply filter_In. split; [|exact Hex].
      now apply in_map.
    + intros path d Hin. apply in_map_iff in Hin.
      destruct Hin as [x [E _]]. discriminate.
    + discriminate.
Qed.

Lemma upload_cleans_up_witness :
  (forall file,
      In file [mkUploadedFile "a.pdf" "labels.pdf"] ->
      existsSync (memoryServer MemoryHost.disk) (file_path file) = true ->
      In (Unlink (file_path file))
         (snd (uploadHandler (memoryServer MemoryHost.disk)
                 (Some [mkUploadedFile "a.pdf" "labels.pdf"])
                 (fun _ => None)))) /\
  (forall path data,
      In (WriteFile path data)
         (snd (uploadHandler (memoryServer MemoryHost.disk)
                 (Some [mkUploadedFile "a.pdf" "labels.pdf"])
                 (fun _ => None))) ->
      exists name u,
        fst (uploadHandler (memoryServer MemoryHost.disk)
               (Some [mkUploadedFile "a.pdf" "labels.pdf"])
               (fun _ => None))
        = Success ("/cropped/" ++ name)%string name u /\
        path = path_join (memoryServer MemoryHost.disk) "cropped" name /\
        processPDF (server_host (memoryServer MemoryHost.disk))
          (map file_path [mkUploadedFile "a.pdf" "labels.pdf"]) (toSettings u)
        = Ok data) /\
  (forall error,
      fst (uploadHandler (memoryServer MemoryHost.disk)
             (Some [mkUploadedFile "a.pdf" "labels.pdf"])
             (fun _ => None))
      <> BadRequest error).
Proof.
  apply (upload_cleans_up (memoryServer MemoryHost.disk)
           [mkUploadedFile "a.pdf" "labels.pdf"] (fun _ => None)).
  - discriminate.
  - apply surjective_pairing.
Defined.

(** The run of the witness: default platform and margin, one file. *)
Lemma upload_run :
  uploadHandler (memoryServer MemoryHost.disk)
    (Some [mkUploadedFile "a.pdf" "labels.pdf"]) (fun _ => None)
  = (Success "/cropped/processed-1700-labels.pdf" "processed-1700-labels.pdf"
       (mkUploadSettings false false false false false EmptyString false
                         "50" "custom"),
     [WriteFile "cropped/processed-1700-labels.pdf"
        (MemoryHost.encode MemoryHost.fileA);
      Unlink "a.pdf"]).
Proof. vm_compute. reflexivity. Qed.

(** X16.  When the route has replaced a default margin, the crop stage of
    [processPDF] crops with the margin of the platform preset: the number
    written by [toString] is read back by [parseInt]. *)
Theorem upload_default_margin_crops (u u' : UploadSettings) :
  up_margin u = "50" \/ up_margin u = EmptyString ->
  applyPlatformPreset u = Ok u' ->
  exists p m,
    getPlatformPreset (up_platform u) = PresetObject p /\
    preset_margin p = Some m /\
    forall pdfDoc,
      cropStage pdfDoc (toSettings u') = Ok (applyMarginCrop pdfDoc m).
Proof.
  intros Hdefault. unfold applyPlatformPreset.
  assert (Hguard : negb (nonEmpty (up_margin u))
                   || String.eqb (up_margin u) "50" = true)
    by (destruct Hdefault as [->| ->]; reflexivity).
  rewrite Hguard.
  destruct (getPlatformPreset_cases (up_platform u))
    as [[Hp Hv]|[[Hp Hv]|[[Hp Hv]|[[Hp Hv]|[Hv|Hv]]]]].
  - rewrite Hv. discriminate.
  - rewrite Hv. simpl. intros E. injection E as <-.
    exists meesho_preset, 40%Q. repeat split.
    intros pdfDoc. unfold cropStage. simpl. rewrite Hp. reflexivity.
  - rewrite Hv. simpl. intros E. injection E as <-.
    exists amazon_preset, 45%Q. repeat split.
    intros pdfDoc. unfold cropStage. simpl. rewrite Hp. reflexivity.
  - rewrite Hv. simpl. intros E. injection E as <-.
    exists citymall_preset, 35%Q. repeat split.
    intros pdfDoc. unfold cropStage. simpl. rewrite Hp. reflexivity.
  - destruct Hv as [Hf [_ [_ [_ [_ Hv]]]]]. rewrite Hv. simpl.
    intros E. injection E as <-.
    exists custom_preset, 50%Q. repeat split.
    intros pdfDoc. unfold cropStage. simpl.
    apply String.eqb_neq in Hf. rewrite Hf. reflexivity.
  - destruct Hv as [_ [_ Hv]]. rewrite Hv. discriminate.
Qed.

Lemma upload_default_margin_crops_witness :
  exists p m,
    getPlatformPreset
      (up_platform
         (settingsOfBody (fun field =>
            if String.eqb field "platform" then Some "meesho" else None)))
    = PresetObject p /\
    preset_margin p = Some m /\
    forall pdfDoc,
      cropStage pdfDoc
        (toSettings
           (set_margin
              (settingsOfBody (fun field =>
                 if String.eqb field "platform" then Some "meesho" else None))
              "40"))
      = Ok (applyMarginCrop pdfDoc m).
Proof.
  apply (upload_default_margin_crops
           (settingsOfBody (fun field =>
              if String.eqb field "platform" then Some "meesho" else None))
           (set_margin
              (settingsOfBody (fun field =>
                 if String.eqb field "platform" then Some "meesho" else None))
              "40")).
  - left. reflexivity.
  - reflexivity.
Defined.

(** X17.  How [getPlatformPreset] resolves every platform name: the named
    preset for flipkart, meesho, amazon and citymall; the inherited member
    of [Object.prototype] for a name that is one of its properties; the
    custom preset (margin 50) for every other name.  It is never
    [undefined]. *)
Theorem getPlatformPreset_resolution (platform : string) :
  getPlatformPreset platform <> Undefined /\
  getPlatformPreset platform
  = if String.eqb platform "flipkart" then PresetObject flipkart_preset
    else if String.eqb platform "meesho" then PresetObject meesho_preset
    else if String.eqb platform "amazon" then PresetObject amazon_preset
    else if String.eqb platform "citymall" then PresetObject citymall_preset
    else if inb platform Object_prototype then Inherited platform
    else PresetObject custom_preset.
Proof.
  destruct (getPlatformPreset_cases platform)
    as [[Hp Hv]|[[Hp Hv]|[[Hp Hv]|[[Hp Hv]|[Hv|Hv]]]]].
  - rewrite Hv, Hp. split; [discriminate|reflexivity].
  - rewrite Hv, Hp. split; [discriminate|reflexivity].
  - rewrite Hv, Hp. split; [discriminate|reflexivity].
  - rewrite Hv, Hp. split; [discriminate|reflexivity].
  - destruct Hv as [Hf [Hm [Ha [Hc [Hno Hv]]]]]. rewrite Hv, Hno.
    apply String.eqb_neq in Hf, Hm, Ha, Hc. rewrite Hf, Hm, Ha, Hc.
    split; [discriminate|reflexivity].
  - destruct Hv as [Hf [Hyes Hv]]. rewrite Hv, Hyes.
    split; [discriminate|].
    destruct (String.eqb_spec platform "flipkart") as [->|_];
      [discriminate Hyes|].
    destruct (String.eqb_spec platform "meesho") as [->|_];
      [discriminate Hyes|].
    destruct (String.eqb_spec platform "amazon") as [->|_];
      [discriminate Hyes|].
    destruct (String.eqb_spec platform "citymall") as [->|_];
      [discriminate Hyes|].
    reflexivity.
Qed.
